(** * grunt-bundle-cache: the [bundlecache] helper of [tasks/bundle-cache.js]
    and the task that calls it

    A shallow embedding of the helper that embeds a list of template files
    into an HTML file as [text/ng-template] script tags, together with the
    JavaScript and Node primitives it calls: [String.prototype.indexOf],
    [slice], [Array.prototype.join], [path.extname], and a file system with
    an effect log.

    Conventions.  A JavaScript string is a [text]: the list of its UTF-16
    code units.  A file on disk holds bytes; [grunt.file.read] decodes them
    and drops a leading byte order mark, [grunt.file.write] encodes the text
    it is given.  The codec and the regular expression engine belong to the
    host and are fields of the [host] record; a UTF-8 codec and an engine for
    a fragment of the pattern language are given for running examples.  The
    disk maps a path, as it is handed to the file-system call, to a regular
    file or to a directory; the log records every read, write and warning in
    order.  A computation returns a value or throws, and leaves a world
    behind in both cases. *)

From Stdlib Require Import ZArith NArith Ascii String List Lia Bool.
From stdpp Require Import base strings gmap list.

Local Open Scope Z_scope.

(** ** JavaScript strings *)

Abbreviation text := (list N).

(** The code unit of an ASCII character, and the text of an ASCII literal. *)
Definition ch (a : ascii) : N := N_of_ascii a.

Definition t (s : string) : text := map N_of_ascii (list_ascii_of_string s).

Module JsString.

Definition nl : text := [10%N].
Definition dq : text := [34%N].

Fixpoint startsWith (m s : text) : bool :=
  match m, s with
  | [], _ => true
  | a :: m', b :: s' => N.eqb a b && startsWith m' s'
  | _ :: _, [] => false
  end.

(** [s.indexOf(m)]: the smallest position at which [m] occurs in [s],
    or [-1]. *)
Fixpoint indexOfFrom (m s : text) (k : Z) : Z :=
  if startsWith m s then k
  else match s with
       | [] => -1
       | _ :: s' => indexOfFrom m s' (k + 1)
       end.

Definition indexOf (s m : text) : Z := indexOfFrom m s 0.

(** Relative index resolution of [slice]: a negative index counts from
    the end, and everything is clamped to [0 .. len]. *)
Definition clamp (len i : Z) : Z :=
  if i <? 0 then Z.max (len + i) 0 else Z.min i len.

(** [s.slice(start, end)]; [end] omitted is [None].  Indices count code
    units. *)
Definition slice (s : text) (start : Z) (stop : option Z) : text :=
  let len := Z.of_nat (length s) in
  let from := clamp len start in
  let to := match stop with Some e => clamp len e | None => len end in
  let span := Z.max (to - from) 0 in
  take (Z.to_nat span) (drop (Z.to_nat from) s).

(** [l.join(sep)] on an array of strings. *)
Fixpoint join (sep : text) (l : list text) : text :=
  match l with
  | [] => []
  | [x] => x
  | x :: l' => x ++ sep ++ join sep l'
  end.

End JsString.

(** ** Regular expressions: an engine for a fragment

    The fragment of the ECMAScript pattern language modelled here:
    pattern characters, [.], the assertions [^] and [$], identity escapes
    of syntax characters, groups, alternation and the greedy quantifiers
    [*], [+] and [?].  Matching is the backtracking, leftmost-first
    semantics of the language, without flags. *)

Module Regex.
Import JsString.

Inductive regex : Type :=
| Empty
| Chr (c : N)
| Dot
| Bol
| Eol
| Seq (r1 r2 : regex)
| Alt (r1 r2 : regex)
| Star (r : regex)
| Plus (r : regex)
| Opt (r : regex).

(** LF, CR, LS and PS. *)
Definition isLineTerminator (c : N) : bool :=
  N.eqb c 10 || N.eqb c 13 || N.eqb c 8232 || N.eqb c 8233.

(** Continuation-passing matcher: [i] is the current index, [s] the text
    from [i] on; the continuation returns the end index of the whole
    match.  An iteration of [*] that consumes nothing is rejected, as in
    the language's RepeatMatcher. *)
Fixpoint matchR (r : regex) (i : nat) (s : text)
    (k : nat -> text -> option nat) : option nat :=
  match r with
  | Empty => k i s
  | Chr c =>
      match s with
      | a :: s' => if N.eqb a c then k (S i) s' else None
      | [] => None
      end
  | Dot =>
      match s with
      | a :: s' => if isLineTerminator a then None else k (S i) s'
      | [] => None
      end
  | Bol => if Nat.eqb i 0 then k i s else None
  | Eol => match s with [] => k i s | _ :: _ => None end
  | Seq r1 r2 => matchR r1 i s (fun i' s' => matchR r2 i' s' k)
  | Alt r1 r2 =>
      match matchR r1 i s k with
      | Some e => Some e
      | None => matchR r2 i s k
      end
  | Star r' =>
      (fix loop (n : nat) (i : nat) (s : text) : option nat :=
         match n with
         | O => k i s
         | S n' =>
             match matchR r' i s
                     (fun i' s' => if Nat.eqb i' i then None else loop n' i' s')
             with
             | Some e => Some e
             | None => k i s
             end
         end) (S (length s)) i s
  | Plus r' =>
      matchR r' i s (fun i1 s1 =>
        (fix loop (n : nat) (i : nat) (s : text) : option nat :=
           match n with
           | O => k i s
           | S n' =>
               match matchR r' i s
                       (fun i' s' => if Nat.eqb i' i then None else loop n' i' s')
               with
               | Some e => Some e
               | None => k i s
               end
           end) (S (length s1)) i1 s1)
  | Opt r' =>
      match matchR r' i s (fun i' s' => if Nat.eqb i' i then None else k i' s') with
      | Some e => Some e
      | None => k i s
      end
  end.

Definition matchAt (r : regex) (i : nat) (s : text) : option nat :=
  matchR r i s (fun e _ => Some e).

(** [re.exec(s)] for a regular expression without the global flag: the
    first index at which the pattern matches, with the end index. *)
Fixpoint execFrom (r : regex) (i : nat) (s : text) : option (nat * nat) :=
  match matchAt r i s with
  | Some e => Some (i, e)
  | None =>
      match s with
      | [] => None
      | _ :: s' => execFrom r (S i) s'
      end
  end.

Definition exec (r : regex) (s : text) : option (nat * nat) := execFrom r 0 s.

(** [s.replace(re, by)] where [by] holds no [$] pattern: the first match
    is replaced, the rest of [s] is kept. *)
Definition replace (s : text) (re : regex) (by_ : text) : text :=
  match exec re s with
  | None => s
  | Some (i, e) => take i s ++ by_ ++ drop e s
  end.

(** *** Pattern syntax *)

Definition isCh (a : ascii) (c : N) : bool := N.eqb c (ch a).

Definition isSyntaxChar (c : N) : bool :=
  isCh "^" c || isCh "$" c || isCh "\" c || isCh "." c || isCh "*" c || isCh "+" c
  || isCh "?" c || isCh "(" c || isCh ")" c || isCh "[" c || isCh "]" c
  || isCh "{" c || isCh "}" c || isCh "|" c.

Definition parseQuantifier (a : regex) (s : text) : regex * text :=
  match s with
  | c :: rest =>
      if isCh "*" c then (Star a, rest)
      else if isCh "+" c then (Plus a, rest)
      else if isCh "?" c then (Opt a, rest)
      else (a, s)
  | [] => (a, s)
  end.

(** After [(]: a capturing group, or [(?:], the only [(?] of the fragment. *)
Definition groupBody (rest : text) : option text :=
  match rest with
  | q :: rest' =>
      if isCh "?" q then
        match rest' with
        | c :: rest'' => if isCh ":" c then Some rest'' else None
        | [] => None
        end
      else Some rest
  | [] => Some rest
  end.

Fixpoint parseDisjunction (fuel : nat) (s : text) : option (regex * text) :=
  match fuel with
  | O => None
  | S fuel' =>
      match parseAlternative fuel' s with
      | Some (r, c :: rest) =>
          if isCh "|" c then
            match parseDisjunction fuel' rest with
            | Some (r2, rest2) => Some (Alt r r2, rest2)
            | None => None
            end
          else Some (r, c :: rest)
      | other => other
      end
  end
with parseAlternative (fuel : nat) (s : text) : option (regex * text) :=
  match fuel with
  | O => None
  | S fuel' =>
      match s with
      | [] => Some (Empty, s)
      | c :: _ =>
          if isCh "|" c || isCh ")" c then Some (Empty, s)
          else
            match parseTerm fuel' s with
            | Some (a, rest) =>
                match parseAlternative fuel' rest with
                | Some (r, rest') => Some (Seq a r, rest')
                | None => None
                end
            | None => None
            end
      end
  end
with parseTerm (fuel : nat) (s : text) : option (regex * text) :=
  match fuel with
  | O => None
  | S fuel' =>
      match s with
      | [] => None
      | c :: rest =>
          if isCh "^" c then Some (Bol, rest)
          else if isCh "$" c then Some (Eol, rest)
          else if isCh "." c then Some (parseQuantifier Dot rest)
          else if isCh "\" c then
            match rest with
            | c2 :: rest2 =>
                if isSyntaxChar c2 || isCh "/" c2
                then Some (parseQuantifier (Chr c2) rest2) else None
            | [] => None
            end
          else if isCh "(" c then
            match groupBody rest with
            | Some b =>
                match parseDisjunction fuel' b with
                | Some (r, c2 :: rest2) =>
                    if isCh ")" c2 then Some (parseQuantifier r rest2) else None
                | _ => None
                end
            | None => None
            end
          else if isSyntaxChar c then None
          else Some (parseQuantifier (Chr c) rest)
      end
  end.

(** The pattern with source [src], when [src] is in the fragment. *)
Definition parse (src : text) : option regex :=
  match parseDisjunction (4 * length src + 8) src with
  | Some (r, []) => Some r
  | _ => None
  end.

(** [new RegExp(src)] as the host record has it: the compiled pattern is
    handed over as the one use the helper makes of it, [s.replace(re, '')].
    On a pattern of the fragment this is JavaScript's answer; outside the
    fragment it answers [None] and stands for no JavaScript engine, so it is
    only ever run on patterns of the fragment. *)
Definition engine (src : text) : option (text -> text) :=
  match parse src with
  | Some re => Some (fun s => replace s re [])
  | None => None
  end.

End Regex.

(** ** Node's [path.extname] (posix)

    The scan runs from the last character to the first and stops at the
    first separator found after a non-separator. *)

Module Path.
Import JsString.

Record scan : Type := Scan {
  startDot : Z;
  startPart : Z;
  end_ : Z;
  matchedSlash : bool;
  preDotState : Z;
  stopped : bool
}.

Definition scan0 : scan := Scan (-1) 0 (-1) true 0 false.

Definition step (st : scan) (i : Z) (code : N) : scan :=
  if stopped st then st
  else if N.eqb code 47 then
    if negb (matchedSlash st)
    then Scan (startDot st) (i + 1) (end_ st) (matchedSlash st) (preDotState st) true
    else st
  else
    let st1 :=
      if end_ st =? -1
      then Scan (startDot st) (startPart st) (i + 1) false (preDotState st) false
      else st in
    if N.eqb code 46 then
      if startDot st1 =? -1
      then Scan i (startPart st1) (end_ st1) (matchedSlash st1) (preDotState st1) false
      else if negb (preDotState st1 =? 1)
      then Scan (startDot st1) (startPart st1) (end_ st1) (matchedSlash st1) 1 false
      else st1
    else if negb (startDot st1 =? -1)
    then Scan (startDot st1) (startPart st1) (end_ st1) (matchedSlash st1) (-1) false
    else st1.

(** The loop [for (i = path.length - 1; i >= 0; --i)]: the characters to
    the right of position [i] are visited first. *)
Fixpoint loop (s : text) (i : Z) : scan :=
  match s with
  | [] => scan0
  | c :: s' => step (loop s' (i + 1)) i c
  end.

Definition extname (path : text) : text :=
  let st := loop path 0 in
  if (startDot st =? -1) || (end_ st =? -1) || (preDotState st =? 0)
     || ((preDotState st =? 1) && (startDot st =? end_ st - 1)
         && (startDot st =? startPart st + 1))
  then []
  else slice path (startDot st) (Some (end_ st)).

End Path.

(** ** UTF-8, for running examples

    The decoder is the one of the Encoding standard: an ill-formed sequence
    gives U+FFFD and the offending byte is looked at again.  The encoder
    pairs surrogates and writes U+FFFD for a lone one. *)

Module Utf8.

Local Open Scope N_scope.

Definition bytesOfString (s : string) : list N :=
  map N_of_ascii (list_ascii_of_string s).

Definition stringOfBytes (l : list N) : string :=
  string_of_list_ascii (map ascii_of_N l).

(** The code units of a code point. *)
Definition units (cp : N) : text :=
  if cp <? 65536 then [cp]
  else [55296 + (cp - 65536) / 1024; 56320 + (cp - 65536) mod 1024].

Inductive dstate : Type :=
| Idle
| Cont (cp : N) (remaining : nat) (lower upper : N).

Definition first (b : N) : text * dstate :=
  if b <=? 127 then ([b], Idle)
  else if (194 <=? b) && (b <=? 223) then ([], Cont (N.land b 31) 1 128 191)
  else if (224 <=? b) && (b <=? 239) then
    ([], Cont (N.land b 15) 2 (if b =? 224 then 160 else 128)
                               (if b =? 237 then 159 else 191))
  else if (240 <=? b) && (b <=? 244) then
    ([], Cont (N.land b 7) 3 (if b =? 240 then 144 else 128)
                              (if b =? 244 then 143 else 191))
  else ([65533], Idle).

Definition step (st : dstate) (b : N) : text * dstate :=
  match st with
  | Idle => first b
  | Cont cp n lo hi =>
      if (lo <=? b) && (b <=? hi) then
        let cp' := cp * 64 + N.land b 63 in
        match n with
        | S (S n') => ([], Cont cp' (S n') 128 191)
        | _ => (units cp', Idle)
        end
      else let (out, st') := first b in (65533 :: out, st')
  end.

Fixpoint decodeFrom (st : dstate) (bytes : list N) : text :=
  match bytes with
  | [] => match st with Idle => [] | Cont _ _ _ _ => [65533] end
  | b :: bs => let (out, st') := step st b in out ++ decodeFrom st' bs
  end.

Definition decode (s : string) : text := decodeFrom Idle (bytesOfString s).

Definition isHigh (u : N) : bool := (55296 <=? u) && (u <=? 56319).
Definition isLow (u : N) : bool := (56320 <=? u) && (u <=? 57343).

(** The code points of a text. *)
Fixpoint points (s : text) : list N :=
  match s with
  | [] => []
  | u :: s' =>
      if isHigh u then
        match s' with
        | v :: s'' =>
            if isLow v
            then (65536 + (u - 55296) * 1024 + (v - 56320)) :: points s''
            else 65533 :: points s'
        | [] => [65533]
        end
      else if isLow u then 65533 :: points s'
      else u :: points s'
  end.

Definition bytesOf (cp : N) : list N :=
  if cp <? 128 then [cp]
  else if cp <? 2048 then [192 + cp / 64; 128 + cp mod 64]
  else if cp <? 65536 then [224 + cp / 4096; 128 + (cp / 64) mod 64; 128 + cp mod 64]
  else [240 + cp / 262144; 128 + (cp / 4096) mod 64;
        128 + (cp / 64) mod 64; 128 + cp mod 64].

Definition encode (s : text) : string :=
  stringOfBytes (flat_map bytesOf (points s)).

End Utf8.

(** ** The file system, the effect log and the monad of the task *)

(** A regular file holds bytes. *)
Inductive node : Type :=
| File (bytes : string)
| Dir.

Inductive event : Type :=
| EvRead (path : text)
| EvWrite (path content : text)
| EvWarn (msg : text).

Record world : Type := World {
  disk : gmap text node;
  log : list event
}.

Inductive error : Type :=
| Warning (msg : text)
| SyntaxError (pattern : text)
| ReadError (path : text)
| StatError (path : text)
| FilterError (msg : text).

Inductive result (A : Type) : Type :=
| Ok (a : A)
| Throw (e : error).
Arguments Ok {A} a.
Arguments Throw {A} e.

(** A computation runs on a world and leaves a world behind, also when it
    throws. *)
Definition M (A : Type) : Type := world -> result A * world.

Definition ret {A} (a : A) : M A := fun w => (Ok a, w).

Definition bind {A B} (m : M A) (k : A -> M B) : M B :=
  fun w =>
    match m w with
    | (Ok a, w') => k a w'
    | (Throw e, w') => (Throw e, w')
    end.

Notation "'do' x <- m ; k" := (bind m (fun x => k))
  (at level 10, x name, m at level 100, k at level 200,
   format "'[v' 'do'  x  <-  m ; '/' k ']'").

Definition lift {A} (r : result A) : M A := fun w => (r, w).

Definition gets {A} (f : gmap text node -> A) : M A :=
  fun w => (Ok (f (disk w)), w).

Definition emit (e : event) : M unit :=
  fun w => (Ok tt, World (disk w) (log w ++ [e])).

Fixpoint mapM {A B} (f : A -> M B) (l : list A) : M (list B) :=
  match l with
  | [] => ret []
  | x :: l' => do y <- f x ; do ys <- mapM f l' ; ret (y :: ys)
  end.

(** Pure computations that may throw. *)
Fixpoint mapR {A B} (f : A -> result B) (l : list A) : result (list B) :=
  match l with
  | [] => Ok []
  | x :: l' =>
      match f x with
      | Ok y => match mapR f l' with Ok ys => Ok (y :: ys) | Throw e => Throw e end
      | Throw e => Throw e
      end
  end.

(** *** [fs] *)

Definition existsSync (d : gmap text node) (p : text) : bool :=
  bool_decide (is_Some (d !! p)).

(** [fs.lstatSync(p).isFile()] *)
Definition lstatIsFile (p : text) : M bool :=
  fun w =>
    match disk w !! p with
    | Some (File _) => (Ok true, w)
    | Some Dir => (Ok false, w)
    | None => (Throw (StatError p), w)
    end.

(** Modelled from the spec: [grunt.fail.warn] belongs to the task runner;
    the spec has the operation fail fatally at this point, so the warning is
    recorded and raised. *)
Definition warn (msg : text) : M unit :=
  do _ <- emit (EvWarn msg) ; lift (Throw (Warning msg)).

(** The capabilities of the host that the helper calls and that are not
    string or file-system primitives: [path.resolve], [grunt.file.expand],
    the codec of [grunt.file.read] and [grunt.file.write] (the default
    encoding, UTF-8), and [new RegExp(src)], which answers [None] for a
    SyntaxError and otherwise the pattern as the function
    [s => s.replace(re, '')], the one use the helper makes of it. *)
Record host : Type := Host {
  resolve : text -> text;
  expand : gmap text node -> text -> list text;
  decode : string -> text;
  encode : text -> string;
  newRegExp : text -> option (text -> text)
}.

(** ** Options and arguments *)

Record Options : Type := MkOptions {
  base : list text;
  filters : gmap text (text -> result text)
}.

(** The [files] argument: one pattern or an array of patterns. *)
Inductive sources : Type :=
| OnePattern (template : text)
| Patterns (templates : list text).

(** ** [bundlecache] *)

Section Bundlecache.
Import JsString.
Variable h : host.

(** The text that [grunt.file.read] makes of the bytes of a file: they are
    decoded, and [if (contents.charCodeAt(0) === 0xFEFF)] the first code
    unit is dropped. *)
Definition fileText (bytes : string) : text :=
  match decode h bytes with
  | 65279%N :: rest => rest
  | contents => contents
  end.

(** [grunt.file.read(p)] *)
Definition fileRead (p : text) : M text :=
  do _ <- emit (EvRead p) ;
  fun w =>
    match disk w !! p with
    | Some (File bytes) => (Ok (fileText bytes), w)
    | _ => (Throw (ReadError p), w)
    end.

(** [grunt.file.write(p, c)]: the file holds the encoding of [c]. *)
Definition fileWrite (p c : text) : M unit :=
  do _ <- emit (EvWrite p c) ;
  fun w => (Ok tt, World (<[p := File (encode h c)]> (disk w)) (log w)).

Definition marker : text := t "</body>".

Definition invalidDestination (destination : text) : text :=
  t "Destination path " ++ destination ++ t " does not exist or is not a File.".

(** [options.base.map(function(base) { return new RegExp('^' + base); })] *)
Definition baseRe (bases : list text) : result (list (text -> text)) :=
  mapR (fun b =>
          match newRegExp h (t "^" ++ b) with
          | Some re => Ok re
          | None => Throw (SyntaxError (t "^" ++ b))
          end) bases.

(** [baseRe.forEach(function(re) { relPath = relPath.replace(re, ''); })] *)
Definition relPathOf (res : list (text -> text)) (filePath : text) : text :=
  fold_left (fun relPath re => re relPath) res filePath.

(** The three constant pieces of
    ['<script type="text/ng-template" id="' + relPath + '">\n' + content + '\n</script>']. *)
Definition tagOpen : text :=
  t "<script type=" ++ dq ++ t "text/ng-template" ++ dq ++ t " id=" ++ dq.
Definition tagMid : text := dq ++ t ">" ++ nl.
Definition tagClose : text := nl ++ t "</script>".

Definition scriptTag (relPath content : text) : text :=
  tagOpen ++ relPath ++ tagMid ++ content ++ tagClose.

(** [if (filter) content = filter(content);] *)
Definition applyFilter (fs : gmap text (text -> result text))
    (ext content : text) : result text :=
  match fs !! ext with
  | Some filter => filter content
  | None => Ok content
  end.

(** The callback of [files.filter(fs.existsSync).map(...)]. *)
Definition tagOf (res : list (text -> text)) (options : Options)
    (filePath : text) : M text :=
  let relPath := relPathOf res filePath in
  do content <- fileRead filePath ;
  let ext := Path.extname filePath in
  do content <- lift (applyFilter (filters options) ext content) ;
  ret (scriptTag relPath content).

(** [files.reduce(function(all, template) {
       return all.concat(grunt.file.expand(template)); }, [])] *)
Definition expandAll (d : gmap text node) (templates : list text) : list text :=
  fold_left (fun all template => all ++ expand h d template) templates [].

Definition templatesOf (files : sources) : list text :=
  match files with
  | OnePattern tpl => [tpl]
  | Patterns ts => ts
  end.

Definition bundlecache (destination : text) (files : sources)
    (options : Options) : M text :=
  do res <- lift (baseRe (base options)) ;
  let destination := resolve h destination in
  do present <- gets (fun d => existsSync d destination) ;
  do regular <- (if present then lstatIsFile destination else ret false) ;
  do _ <- (if negb present || negb regular
           then warn (invalidDestination destination) else ret tt) ;
  let files := templatesOf files in
  do files <- gets (fun d => expandAll d files) ;
  do existing <- gets (fun d => List.filter (existsSync d) files) ;
  do tags <- mapM (tagOf res options) existing ;
  do html <- fileRead destination ;
  let idx := indexOf html marker in
  let html := slice html 0 (Some idx) ++ join nl tags ++ slice html idx None in
  do _ <- fileWrite destination html ;
  ret html.

End Bundlecache.

(** ** The task registered with the runner

    [grunt.registerMultiTask('bundlecache', ...)]: the options are
    normalised once, then every target of [this.files] goes through
    [bundlecache] and a line is printed for it. *)

(** The values [options.base] can hold. *)
Inductive rawBase : Type :=
| BaseAbsent
| BaseString (s : text)
| BaseArray (l : list text).

Record rawOptions : Type := RawOptions {
  rawBaseOf : rawBase;
  rawFiltersOf : option (gmap text (text -> result text))
}.

(** [if (!options.base) options.base = [];
     else if (typeof(options.base) === 'string') options.base = [options.base];
     if (!options.filters) options.filters = {};]
    The empty string is falsy; an array, also the empty one, is not. *)
Definition normalizeOptions (raw : rawOptions) : Options :=
  MkOptions
    (match rawBaseOf raw with
     | BaseAbsent => []
     | BaseString [] => []
     | BaseString s => [s]
     | BaseArray l => l
     end)
    (match rawFiltersOf raw with
     | None => ∅
     | Some fs => fs
     end).

(** One entry of [this.files]. *)
Record target : Type := Target {
  dest : text;
  src : sources
}.

Section Task.
Variable h : host.

(** [String.prototype.cyan] of the runner's colour support. *)
Variable cyan : text -> text.

Definition updated (f : target) : text :=
  t "File " ++ cyan (dest f) ++ t " updated with cache.".

(** [this.files.forEach(function(f) { bundlecache(f.dest, f.src, options);
      grunt.log.writeln(...); })]: the lines written so far are threaded
    beside the world; a throw leaves the loop. *)
Fixpoint forEachFile (options : Options) (files : list target)
    (w : world) (out : list text) : result unit * world * list text :=
  match files with
  | [] => (Ok tt, w, out)
  | f :: rest =>
      match bundlecache h (dest f) (src f) options w with
      | (Ok _, w') => forEachFile options rest w' (out ++ [updated f])
      | (Throw e, w') => (Throw e, w', out)
      end
  end.

Definition bundlecacheTask (raw : rawOptions) (files : list target)
    (w : world) (out : list text) : result unit * world * list text :=
  forEachFile (normalizeOptions raw) files w out.

End Task.

(** ** A small host for running examples: the working directory is the
    root, a pattern without wildcards expands to itself when the path
    exists, files are UTF-8 and patterns are those of the fragment. *)

Definition exampleHost : host :=
  {| resolve := fun p => if JsString.startsWith (t "/") p then p else t "/" ++ p;
     expand := fun d tpl => if existsSync d tpl then [tpl] else [];
     decode := Utf8.decode;
     encode := Utf8.encode;
     newRegExp := Regex.engine |}.

(** A host whose expansion still lists a path that has vanished since. *)
Definition staleHost : host :=
  {| resolve := resolve exampleHost;
     expand := fun _ tpl => [tpl];
     decode := Utf8.decode;
     encode := Utf8.encode;
     newRegExp := Regex.engine |}.

Definition exampleDisk : gmap text node :=
  <[t "/index.html" := File "<html><body>X</body></html>"]>
  (<[t "a.html" := File "hello"]> ∅).

Definition noOptions : Options := MkOptions [] ∅.

(** The block of [a.html] holding [hello], and the outputs of the examples. *)
Definition exampleTag : text :=
  tagOpen ++ t "a.html" ++ tagMid ++ t "hello" ++ tagClose.

Definition exampleOutput : text :=
  t "<html><body>X" ++ exampleTag ++ t "</body></html>".

(** A destination without the closing body tag. *)
Definition noBodyDisk : gmap text node :=
  <[t "/index.html" := File "<html></html>"]>
  (<[t "a.html" := File "hello"]> ∅).

Definition noBodyOutput : text :=
  t "<html></html" ++ exampleTag ++ t ">".

(** Two sources, one of them under a directory that a base names, and a
    filter for the [.dust] extension. *)
Definition braces (c : text) : result text := Ok (t "{" ++ c ++ t "}").

Definition twoDisk : gmap text node :=
  <[t "/index.html" := File "<html><body>X</body></html>"]>
  (<[t "app/widgets/x.html" := File "hello"]>
  (<[t "lib/src/x.dust" := File "bye"]>
  (<[t "app" := Dir]> ∅))).

Definition twoOptions : Options :=
  MkOptions [t "app/"] (<[t ".dust" := braces]> ∅).

(** The compiled bases of [twoOptions]: the pattern [^app/]. *)
Definition appRe : list (text -> text) :=
  [fun s => Regex.replace s
     (Regex.Seq Regex.Bol
        (Regex.Seq (Regex.Chr 97) (Regex.Seq (Regex.Chr 112)
           (Regex.Seq (Regex.Chr 112) (Regex.Seq (Regex.Chr 47) Regex.Empty))))) []].

(** A base with an alternation. *)
Definition altOptions : Options := MkOptions [t "app/|src/"] ∅.

Definition failing (c : text) : result text := Throw (FilterError (t "bad template")).

Definition failingOptions : Options :=
  MkOptions [] (<[t ".dust" := failing]> ∅).

Definition plainCyan (s : text) : text := t "[" ++ s ++ t "]".

(** The UTF-8 byte order mark, and a destination that begins with it. *)
Definition bom : string := String "239" (String "187" (String "191" EmptyString)).

Definition bomDisk : gmap text node :=
  <[t "/index.html" := File (bom +:+ "<html><body>X</body></html>")]>
  (<[t "a.html" := File "hello"]> ∅).

(** A source that begins with the byte order mark. *)
Definition bomSourceDisk : gmap text node :=
  <[t "b.html" := File (bom +:+ "hello")]> ∅.

(** U+1F600 in UTF-8, and a destination without marker that ends with it. *)
Definition smiley : string :=
  String "240" (String "159" (String "152" (String "128" EmptyString))).

(** U+FFFD in UTF-8. *)
Definition replacement : string :=
  String "239" (String "191" (String "189" EmptyString)).

Definition smileyDisk : gmap text node :=
  <[t "/index.html" := File ("<p>" +:+ smiley)]>
  (<[t "a.html" := File "hello"]> ∅).

(** The bytes of the double quote and of the line feed, and the bytes of
    the block of [a.html] holding [hello]. *)
Definition quote : string := String "034" EmptyString.
Definition lf : string := String "010" EmptyString.

Definition exampleBlockBytes : string :=
  "<script type=" +:+ quote +:+ "text/ng-template" +:+ quote +:+ " id=" +:+ quote
    +:+ "a.html" +:+ quote +:+ ">" +:+ lf +:+ "hello" +:+ lf +:+ "</script>".

(** A destination in Latin-1: the byte 233 after the marker is no UTF-8. *)
Definition eAcute : string := String "233" EmptyString.

Definition latin1Disk : gmap text node :=
  <[t "/index.html" := File ("<html><body>X</body>caf" +:+ eAcute +:+ "</html>")]>
  (<[t "a.html" := File "hello"]> ∅).

(** ** Vocabulary of the specification *)

(** [m] occurs in [s]. *)
Definition occurs (m s : text) : Prop :=
  exists pre post, s = pre ++ m ++ post.

(** [s] splits at the first occurrence of [m]. *)
Definition firstAt (m s pre post : text) : Prop :=
  s = pre ++ m ++ post /\
  forall pre' post', s = pre' ++ m ++ post' ->
    (length pre <= length pre')%nat.

(** [c] is the content embedded for the readable file [p]: the text read
    from it, passed through the filter of its extension when there is
    one. *)
Definition contentOf (h : host) (d : gmap text node) (options : Options)
    (p c : text) : Prop :=
  exists raw,
    d !! p = Some (File raw) /\
    applyFilter (filters options) (Path.extname p) (fileText h raw) = Ok c.

(** [tg] is the tag block of the readable file [p], under the identifier
    computed from [res]. *)
Definition blockOf (h : host) (d : gmap text node) (res : list (text -> text))
    (options : Options) (p tg : text) : Prop :=
  exists raw c,
    d !! p = Some (File raw) /\
    applyFilter (filters options) (Path.extname p) (fileText h raw) = Ok c /\
    tg = scriptTag (relPathOf res p) c.

(** [after] is [before] with something inserted immediately before its
    first [</body>]: the part up to that marker and the part from the
    marker on are kept as they are.  Stated of code units and of bytes
    alike. *)
Definition keptAround (before after : list N) : Prop :=
  exists pre post inserted,
    firstAt (t "</body>") before pre post /\
    after = pre ++ inserted ++ t "</body>" ++ post.

(** The text [bundlecache] builds from the destination text and the tags. *)
Definition spliced (html : text) (tags : list text) : text :=
  let idx := JsString.indexOf html marker in
  JsString.slice html 0 (Some idx) ++ JsString.join JsString.nl tags
    ++ JsString.slice html idx None.

(** The tag block in the words of the specification:
    [<script type="text/ng-template" id="{identifier}">], a line feed, the
    content, a line feed and [</script>]; 34 is the double quote and 10 the
    line feed. *)
Definition claimedBlock (identifier content : text) : text :=
  t "<script type=" ++ [34%N] ++ t "text/ng-template" ++ [34%N] ++ t " id=" ++ [34%N]
    ++ identifier ++ [34%N] ++ t ">" ++ [10%N]
    ++ content ++ [10%N] ++ t "</script>".

(** Blocks in list order with exactly one line feed between neighbours. *)
Definition claimedJoin (blocks : list text) : text :=
  match blocks with
  | [] => []
  | b :: bs => b ++ foldr (fun b' acc => [10%N] ++ b' ++ acc) [] bs
  end.

(** The blocks of the paths [ps] with the contents [cs], as claimed. *)
Definition claimedBlocks (res : list (text -> text)) (ps cs : list text) : list text :=
  zip_with (fun p c => claimedBlock (relPathOf res p) c) ps cs.

(** Blocks in list order with one separator between neighbours. *)
Definition separatedBy (sep : text) (l : list text) : text :=
  match l with
  | [] => []
  | x :: xs => x ++ foldr (fun x' acc => sep ++ x' ++ acc) [] xs
  end.

(** A start-anchored strip, in the words of the specification: when the
    pattern [b] matches at the start of [path], the matched prefix is
    removed; otherwise [path] is unchanged. *)
Definition stripAnchored (b : Regex.regex) (path : text) : text :=
  match Regex.matchAt b 0 path with
  | Some e => drop e path
  | None => path
  end.

(** The identifier of the specification: every base stripped in sequence. *)
Definition identifierSpec (bases : list Regex.regex) (path : text) : text :=
  fold_left (fun p b => stripAnchored b p) bases path.

(** A pattern of the fragment as the engine hands it over. *)
Definition compiled (re : Regex.regex) : text -> text :=
  fun s => Regex.replace s re [].

(** The engine of the host gives, on a pattern of the fragment, the
    pattern of the fragment. *)
Definition knowsFragment (h : host) : Prop :=
  forall src f, Regex.engine src = Some f -> newRegExp h src = Some f.

(** A base without syntax characters, and the pattern it stands for. *)
Fixpoint allPlain (s : text) : bool :=
  match s with
  | [] => true
  | c :: s' => negb (Regex.isSyntaxChar c) && allPlain s'
  end.

Fixpoint literal (s : text) : Regex.regex :=
  match s with
  | [] => Regex.Empty
  | c :: s' => Regex.Seq (Regex.Chr c) (literal s')
  end.

(** Removing the prefix [b] when it is there. *)
Definition stripPrefix (path b : text) : text :=
  if JsString.startsWith b path
  then drop (length b) path
  else path.

(** What the scan of [extname] has found in the text [s] that starts at
    index [i]: the end of the last component, when set, lies in the text,
    and the dot, when set, is a dot of the text before that end. *)
Definition scanFound (s : text) (i : Z) (st : Path.scan) : Prop :=
  (Path.end_ st = -1 \/ i < Path.end_ st <= i + Z.of_nat (length s)) /\
  (Path.startDot st = -1 \/
   (i <= Path.startDot st < Path.end_ st /\
    exists rest, drop (Z.to_nat (Path.startDot st - i)) s = 46%N :: rest)).

(** An event that changes the disk. *)
Definition isWrite (ev : event) : bool :=
  match ev with
  | EvWrite _ _ => true
  | _ => false
  end.

(** The targets [fs] all complete, one after the other, from [w] to [w']. *)
Inductive completes (h : host) (options : Options) :
    list target -> world -> world -> Prop :=
| completes_nil w : completes h options [] w w
| completes_cons f fs w out w1 w2 :
    bundlecache h (dest f) (src f) options w = (Ok out, w1) ->
    completes h options fs w1 w2 ->
    completes h options (f :: fs) w w2.

(** * Properties of the string primitives *)

Section StringFacts.
Import JsString.

Lemma startsWith_app m s : startsWith m (m ++ s) = true.
Proof.
  induction m as [|a m IH]; [reflexivity|].
  simpl. by rewrite N.eqb_refl, IH.
Qed.

Lemma startsWith_inv m s : startsWith m s = true -> exists r, s = m ++ r.
Proof.
  revert s. induction m as [|a m IH]; intros s H.
  - by exists s.
  - destruct s as [|b s]; [discriminate|]. simpl in H.
    apply andb_true_iff in H as [Hab Hm].
    apply N.eqb_eq in Hab as ->.
    destruct (IH _ Hm) as [r ->]. by exists r.
Qed.

Lemma clamp_range len i : 0 <= len -> 0 <= clamp len i <= len.
Proof. intros H. unfold clamp. destruct (i <? 0) eqn:E; lia. Qed.

Lemma clamp_inside len i : 0 <= i <= len -> clamp len i = i.
Proof.
  intros H. unfold clamp. destruct (i <? 0) eqn:E; [apply Z.ltb_lt in E|]; lia.
Qed.


(** [slice(0, i)] and [slice(i)] always cut the text in two. *)
Lemma slice_cut s i : slice s 0 (Some i) ++ slice s i None = s.
Proof.
  unfold slice. cbn zeta.
  set (len := Z.of_nat (length s)).
  assert (0 <= len) as Hlen by lia.
  pose proof (clamp_range len i Hlen) as Hc.
  rewrite (clamp_inside len 0) by lia.
  rewrite Z.sub_0_r. change (drop (Z.to_nat 0) s) with s.
  replace (Z.to_nat (Z.max (clamp len i) 0)) with (Z.to_nat (clamp len i)) by lia.
  rewrite (take_ge (drop (Z.to_nat (clamp len i)) s)).
  - apply take_drop.
  - rewrite length_drop. lia.
Qed.

(** The two slices at a position inside the text. *)
Lemma slice_at pre post :
  let s := pre ++ post in
  let i := Z.of_nat (length pre) in
  slice s 0 (Some i) = pre /\ slice s i None = post.
Proof.
  intros s i.
  assert (slice s 0 (Some i) = pre) as H1.
  { unfold slice. cbn zeta. subst s i. rewrite length_app.
    rewrite !clamp_inside by lia. change (drop (Z.to_nat 0) (pre ++ post)) with (pre ++ post).
    replace (Z.to_nat (Z.max (Z.of_nat (length pre) - 0) 0)) with (length pre) by lia.
    apply take_app_length. }
  split; [exact H1|].
  pose proof (slice_cut s i) as Hc. rewrite H1 in Hc.
  subst s. by apply app_inv_head in Hc.
Qed.


Lemma occurs_startsWith m s : startsWith m s = true -> occurs m s.
Proof. intros [r ->]%startsWith_inv. by exists [], r. Qed.

Lemma occurs_tail m c s : occurs m s -> occurs m (c :: s).
Proof. intros (pre & post & ->). by exists (c :: pre), post. Qed.

Lemma occurs_cases m c s :
  occurs m (c :: s) -> startsWith m (c :: s) = true \/ occurs m s.
Proof.
  intros (pre & post & H). destruct pre as [|a pre].
  - left. rewrite H. apply (startsWith_app m post).
  - right. injection H as _ ->. by exists pre, post.
Qed.

(** [indexOf] finds the first occurrence. *)
Lemma indexOfFrom_found m s k :
  occurs m s ->
  exists pre post, firstAt m s pre post /\
    indexOfFrom m s k = k + Z.of_nat (length pre).
Proof.
  revert k. induction s as [|c s IH]; intros k Hocc.
  - destruct Hocc as (pre & post & H).
    destruct pre; [|discriminate]. destruct m; [|discriminate].
    exists [], []. split; [|simpl; lia].
    split; [reflexivity|]. intros; simpl; lia.
  - simpl indexOfFrom. destruct (startsWith m (c :: s)) eqn:E.
    + destruct (startsWith_inv _ _ E) as [r Hr].
      exists [], r. split; [|simpl; lia].
      split; [exact Hr|]. intros; simpl; lia.
    + destruct (occurs_cases _ _ _ Hocc) as [?|Hs]; [congruence|].
      destruct (IH (k + 1) Hs) as (pre & post & [Heq Hmin] & Hidx).
      exists (c :: pre), post. split.
      * split; [by rewrite Heq|].
        intros [|a pre'] post' H'.
        -- simpl in H'. rewrite H', startsWith_app in E. discriminate.
        -- injection H' as _ H'.
           specialize (Hmin _ _ H'). simpl. lia.
      * rewrite Hidx. simpl length. lia.
Qed.


Lemma classic_occurs m s : occurs m s \/ ~ occurs m s.
Proof.
  induction s as [|c s IH].
  - destruct (startsWith m []) eqn:E.
    + left. by apply occurs_startsWith.
    + right. intros (pre & post & H). destruct pre; [|discriminate].
      destruct m; discriminate.
  - destruct (startsWith m (c :: s)) eqn:E.
    + left. by apply occurs_startsWith.
    + destruct IH as [H|H]; [left; by apply occurs_tail|].
      right. intros [?|?]%occurs_cases; congruence.
Qed.

Lemma indexOf_found m s :
  occurs m s ->
  exists pre post, firstAt m s pre post /\
    indexOf s m = Z.of_nat (length pre).
Proof.
  intros H. destruct (indexOfFrom_found m s 0 H) as (pre & post & Hf & Hi).
  exists pre, post. split; [exact Hf|]. unfold indexOf. rewrite Hi. lia.
Qed.


Lemma indexOf_no_occurs m s : indexOf s m = -1 -> ~ occurs m s.
Proof.
  intros H Hocc. destruct (indexOf_found _ _ Hocc) as (pre & post & _ & Hi). lia.
Qed.

Lemma join_separatedBy sep l : join sep l = separatedBy sep l.
Proof.
  destruct l as [|x xs]; [reflexivity|].
  revert x. induction xs as [|x' xs IH]; intros x.
  - simpl. by rewrite app_nil_r.
  - change (join sep (x :: x' :: xs)) with (x ++ sep ++ join sep (x' :: xs)).
    rewrite IH. reflexivity.
Qed.

(** The join of the code is the join of the specification, and the block of
    the code its block. *)
Lemma join_claimed l : join nl l = claimedJoin l.
Proof. apply (join_separatedBy nl l). Qed.

Lemma scriptTag_claimed identifier content :
  scriptTag identifier content = claimedBlock identifier content.
Proof.
  unfold scriptTag, claimedBlock, tagOpen, tagMid, tagClose, dq, nl.
  by rewrite <- !app_assoc.
Qed.

Lemma firstAt_unique m s p1 q1 p2 q2 :
  firstAt m s p1 q1 -> firstAt m s p2 q2 -> p1 = p2 /\ q1 = q2.
Proof.
  intros [H1 M1] [H2 M2].
  assert (length p1 = length p2) as Hlen.
  { specialize (M1 _ _ H2). specialize (M2 _ _ H1). lia. }
  rewrite H1 in H2. apply app_inj_1 in H2 as [-> H2]; [|exact Hlen].
  by apply app_inv_head in H2 as ->.
Qed.

Lemma firstAt_index m s pre post :
  indexOf s m = Z.of_nat (length pre) -> s = pre ++ m ++ post ->
  firstAt m s pre post.
Proof.
  intros Hi Hs.
  destruct (indexOf_found m s) as (pre' & post' & Hf & Hi'); [by exists pre, post|].
  pose proof Hf as [Hs' _]. rewrite Hs in Hs'.
  apply app_inj_1 in Hs' as [E1 E2]; [|lia].
  apply app_inv_head in E2. by subst pre' post'.
Qed.

(** The text built from a destination text that holds the marker. *)
Lemma spliced_found html tags :
  occurs marker html ->
  exists pre post,
    firstAt marker html pre post /\
    spliced html tags = pre ++ join nl tags ++ marker ++ post.
Proof.
  intros Hmark. destruct (indexOf_found _ _ Hmark) as (pre & post & Hf & Hi).
  exists pre, post. split; [exact Hf|].
  unfold spliced. rewrite Hi. destruct Hf as [-> _].
  by destruct (slice_at pre (marker ++ post)) as [-> ->].
Qed.

End StringFacts.

(** * The run of [bundlecache] *)

Section RunFacts.
Import JsString.
Variable h : host.

Lemma fileWrite_run d l p c :
  fileWrite h p c (World d l) =
    (Ok tt, World (<[p := File (encode h c)]> d) (l ++ [EvWrite p c])).
Proof. reflexivity. Qed.

Lemma warn_run d l msg :
  warn msg (World d l) = (Throw (Warning msg), World d (l ++ [EvWarn msg])).
Proof. reflexivity. Qed.

Lemma fileRead_file d l p raw :
  d !! p = Some (File raw) ->
  fileRead h p (World d l) = (Ok (fileText h raw), World d (l ++ [EvRead p])).
Proof. intros H. unfold fileRead, bind, emit. simpl. by rewrite H. Qed.

Lemma tagOf_ok d l res options p tg :
  blockOf h d res options p tg ->
  tagOf h res options p (World d l) = (Ok tg, World d (l ++ [EvRead p])).
Proof.
  intros (raw & c & Hp & Hf & ->). unfold tagOf. unfold bind at 1.
  rewrite (fileRead_file _ _ _ _ Hp). unfold bind, lift, ret. by rewrite Hf.
Qed.

Lemma tagOf_throw_dir d l res options p :
  d !! p = Some Dir ->
  tagOf h res options p (World d l) = (Throw (ReadError p), World d (l ++ [EvRead p])).
Proof.
  intros Hp. unfold tagOf. unfold bind at 1.
  unfold fileRead, bind, emit. cbn [disk log]. by rewrite Hp.
Qed.

Lemma tagOf_throw_filter d l res options p raw filter e :
  d !! p = Some (File raw) ->
  filters options !! Path.extname p = Some filter ->
  filter (fileText h raw) = Throw e ->
  tagOf h res options p (World d l) = (Throw e, World d (l ++ [EvRead p])).
Proof.
  intros Hp Hf He. unfold tagOf. unfold bind at 1.
  rewrite (fileRead_file _ _ _ _ Hp). unfold bind, lift, applyFilter.
  by rewrite Hf, He.
Qed.

(** What a single source does, whatever it is. *)
Lemma tagOf_inv d l res options p r w' :
  tagOf h res options p (World d l) = (r, w') ->
  w' = World d (l ++ [EvRead p]) /\
  match r with
  | Ok tg => blockOf h d res options p tg
  | Throw _ => True
  end.
Proof.
  unfold tagOf. unfold bind at 1. unfold fileRead, bind, emit. cbn [disk log].
  destruct (d !! p) as [[raw|]|] eqn:Hp.
  - unfold lift, ret.
    destruct (applyFilter (filters options) (Path.extname p) (fileText h raw))
      as [c|e] eqn:Hf; intros [= <- <-]; split; try done.
    by exists raw, c.
  - by intros [= <- <-].
  - by intros [= <- <-].
Qed.

Lemma mapM_tagOf_ok d res options ps tags : forall l,
  Forall2 (blockOf h d res options) ps tags ->
  mapM (tagOf h res options) ps (World d l) = (Ok tags, World d (l ++ map EvRead ps)).
Proof.
  intros l H. revert l. induction H as [|p tg ps tags Hp _ IH]; intros l.
  - simpl. unfold ret. by rewrite app_nil_r.
  - simpl. unfold bind at 1. rewrite (tagOf_ok _ _ _ _ _ _ Hp).
    unfold bind at 1. rewrite IH. unfold ret.
    by rewrite <- app_assoc.
Qed.

(** The sources are read in order up to the first one that throws. *)
Lemma mapM_tagOf_inv d res options ps : forall l r w',
  mapM (tagOf h res options) ps (World d l) = (r, w') ->
  match r with
  | Ok tags =>
      Forall2 (blockOf h d res options) ps tags /\
      w' = World d (l ++ map EvRead ps)
  | Throw e =>
      exists before p after tags,
        ps = before ++ p :: after /\
        Forall2 (blockOf h d res options) before tags /\
        tagOf h res options p (World d (l ++ map EvRead before))
          = (Throw e, World d (l ++ map EvRead before ++ [EvRead p])) /\
        w' = World d (l ++ map EvRead before ++ [EvRead p])
  end.
Proof.
  induction ps as [|p ps IH]; intros l r w'; simpl.
  - intros [= <- <-]. split; [constructor|]. by rewrite app_nil_r.
  - unfold bind at 1.
    destruct (tagOf h res options p (World d l)) as [[tg|e] w1] eqn:E1;
      destruct (tagOf_inv _ _ _ _ _ _ _ E1) as [-> Hb].
    + unfold bind at 1.
      destruct (mapM (tagOf h res options) ps (World d (l ++ [EvRead p])))
        as [[ts|e] w2] eqn:E2; apply IH in E2.
      * destruct E2 as [HF ->]. unfold ret. intros [= <- <-].
        split; [by constructor|]. by rewrite <- app_assoc.
      * destruct E2 as (before & q & after & tags & -> & HF & Hq & ->).
        intros [= <- <-]. exists (p :: before), q, after, (tg :: tags).
        rewrite <- !app_assoc in *. cbn [map app] in *.
        split; [done|]. split; [by constructor|]. split; [exact Hq | done].
    + intros [= <- <-]. exists [], p, ps, []. cbn [map app].
      rewrite app_nil_r. split; [done|]. split; [constructor|]. split; [exact E1 | done].
Qed.

Lemma mapM_tagOf_fails d res options before p after tags e : forall l,
  Forall2 (blockOf h d res options) before tags ->
  (forall l', tagOf h res options p (World d l') = (Throw e, World d (l' ++ [EvRead p]))) ->
  mapM (tagOf h res options) (before ++ p :: after) (World d l) =
    (Throw e, World d (l ++ map EvRead before ++ [EvRead p])).
Proof.
  intros l HF Hp. revert l. induction HF as [|q tg before tags Hq _ IH]; intros l.
  - cbn [app map mapM]. unfold bind at 1. by rewrite Hp.
  - cbn [app map mapM]. unfold bind at 1. rewrite (tagOf_ok _ _ _ _ _ _ Hq).
    unfold bind at 1. rewrite IH. by rewrite <- app_assoc.
Qed.

(** A base that is not a pattern is reported when the patterns are
    compiled, before the file system is touched. *)
Lemma bundlecache_bad_base destination files options w e :
  baseRe h (base options) = Throw e ->
  bundlecache h destination files options w = (Throw e, w).
Proof. intros H. unfold bundlecache, bind, lift. by rewrite H. Qed.

(** The destination check, when it fails. *)
Lemma bundlecache_not_file destination files options d l res :
  baseRe h (base options) = Ok res ->
  (forall raw, d !! resolve h destination <> Some (File raw)) ->
  bundlecache h destination files options (World d l) =
    (Throw (Warning (invalidDestination (resolve h destination))),
     World d (l ++ [EvWarn (invalidDestination (resolve h destination))])).
Proof.
  intros Hres Hbad.
  unfold bundlecache. unfold bind at 1. unfold lift at 1. rewrite Hres.
  unfold bind at 1. unfold gets at 1. cbn [disk]. unfold existsSync.
  destruct (d !! resolve h destination) as [[raw|]|] eqn:Hd.
  - by destruct (Hbad raw).
  - rewrite bool_decide_eq_true_2 by eauto.
    unfold bind at 1. unfold lstatIsFile. cbn [disk]. rewrite Hd.
    cbn [negb orb]. unfold bind at 1. by rewrite warn_run.
  - rewrite bool_decide_eq_false_2 by (intros [? ?]; discriminate).
    unfold bind at 1. unfold ret at 1.
    cbn [negb orb]. unfold bind at 1. by rewrite warn_run.
Qed.

(** The run up to the call of [mapM], once the bases are compiled and the
    destination is a regular file. *)
Lemma bundlecache_after_checks destination files options d l res raw :
  baseRe h (base options) = Ok res ->
  d !! resolve h destination = Some (File raw) ->
  bundlecache h destination files options (World d l) =
    match mapM (tagOf h res options)
            (List.filter (existsSync d) (expandAll h d (templatesOf files))) (World d l) with
    | (Ok tags, w1) =>
        (do html <- fileRead h (resolve h destination);
         let out := spliced html tags in
         do _ <- fileWrite h (resolve h destination) out;
         ret out) w1
    | (Throw e, w1) => (Throw e, w1)
    end.
Proof.
  intros Hres Hdest. unfold bundlecache.
  unfold bind at 1. unfold lift at 1. rewrite Hres.
  unfold bind at 1. unfold gets at 1. cbn [disk].
  assert (existsSync d (resolve h destination) = true) as ->.
  { unfold existsSync. apply bool_decide_eq_true. by rewrite Hdest. }
  unfold bind at 1. unfold lstatIsFile. cbn [disk]. rewrite Hdest.
  cbn [negb orb]. unfold bind at 1. unfold ret at 1.
  unfold bind at 1. unfold gets at 1. cbn [disk].
  unfold bind at 1. unfold gets at 1. cbn [disk].
  unfold bind at 1. reflexivity.
Qed.

(** The successful run: the bases are patterns, the destination is a
    regular file and every existing resolved path can be read and
    filtered. *)
Lemma bundlecache_ok destination files options d l res raw tags :
  baseRe h (base options) = Ok res ->
  d !! resolve h destination = Some (File raw) ->
  Forall2 (blockOf h d res options)
    (List.filter (existsSync d) (expandAll h d (templatesOf files))) tags ->
  bundlecache h destination files options (World d l) =
    (Ok (spliced (fileText h raw) tags),
     World (<[resolve h destination := File (encode h (spliced (fileText h raw) tags))]> d)
           (l ++ map EvRead (List.filter (existsSync d) (expandAll h d (templatesOf files)))
              ++ [EvRead (resolve h destination);
                  EvWrite (resolve h destination) (spliced (fileText h raw) tags)])).
Proof.
  intros Hres Hdest Htags.
  rewrite (bundlecache_after_checks _ _ _ _ _ _ _ Hres Hdest).
  rewrite (mapM_tagOf_ok _ _ _ _ _ _ Htags).
  unfold bind at 1. rewrite (fileRead_file _ _ _ _ Hdest).
  unfold bind at 1. rewrite fileWrite_run. unfold ret.
  by rewrite <- !app_assoc.
Qed.

(** Every run: either it throws, the disk is as before and nothing new in
    the log is a write; or it succeeds with the effects of
    [bundlecache_ok]. *)
Lemma bundlecache_effects destination files options d l r w' :
  bundlecache h destination files options (World d l) = (r, w') ->
  (exists e evs,
      r = Throw e /\ w' = World d (l ++ evs) /\ Forall (fun ev => isWrite ev = false) evs)
  \/
  (exists res raw tags,
      baseRe h (base options) = Ok res /\
      d !! resolve h destination = Some (File raw) /\
      Forall2 (blockOf h d res options)
        (List.filter (existsSync d) (expandAll h d (templatesOf files))) tags /\
      r = Ok (spliced (fileText h raw) tags) /\
      w' = World (<[resolve h destination := File (encode h (spliced (fileText h raw) tags))]> d)
             (l ++ map EvRead (List.filter (existsSync d) (expandAll h d (templatesOf files)))
                ++ [EvRead (resolve h destination);
                    EvWrite (resolve h destination) (spliced (fileText h raw) tags)])).
Proof.
  intros Hrun.
  destruct (baseRe h (base options)) as [res|e] eqn:Hres.
  2:{ rewrite (bundlecache_bad_base _ _ _ _ e Hres) in Hrun. injection Hrun as <- <-.
      left. exists e, []. rewrite app_nil_r. by repeat split. }
  destruct (d !! resolve h destination) as [[raw|]|] eqn:Hdest.
  - destruct (mapM (tagOf h res options)
                (List.filter (existsSync d) (expandAll h d (templatesOf files)))
                (World d l)) as [[tags|e] w1] eqn:E;
      pose proof (mapM_tagOf_inv _ _ _ _ _ _ _ E) as HE.
    + destruct HE as [HF _]. right. exists res, raw, tags.
      rewrite (bundlecache_ok _ _ _ _ _ _ _ _ Hres Hdest HF) in Hrun.
      injection Hrun as <- <-. by repeat split.
    + destruct HE as (before & p & after & tags & _ & _ & _ & ->).
      rewrite (bundlecache_after_checks _ _ _ _ _ _ _ Hres Hdest), E in Hrun.
      injection Hrun as <- <-. left. exists e, (map EvRead before ++ [EvRead p]).
      split; [done|]. split; [done|].
      apply Forall_app. split; [|by repeat constructor].
      apply Forall_forall. by intros ev (q & -> & _)%list_elem_of_fmap.
  - rewrite (bundlecache_not_file _ _ _ _ _ _ Hres) in Hrun
      by (intros c; rewrite Hdest; discriminate).
    injection Hrun as <- <-. left.
    eexists _, [_]. split; [done|]. split; [done|]. by repeat constructor.
  - rewrite (bundlecache_not_file _ _ _ _ _ _ Hres) in Hrun
      by (intros c; rewrite Hdest; discriminate).
    injection Hrun as <- <-. left.
    eexists _, [_]. split; [done|]. split; [done|]. by repeat constructor.
Qed.

Lemma expandAll_concat d templates :
  expandAll h d templates = concat (map (expand h d) templates).
Proof.
  unfold expandAll.
  assert (forall acc, fold_left (fun all template => all ++ expand h d template) templates acc
                      = acc ++ concat (map (expand h d) templates)) as H.
  { induction templates as [|x ts IH]; intros acc; simpl.
    - by rewrite app_nil_r.
    - by rewrite IH, <- app_assoc. }
  apply H.
Qed.

(** Readable sources give the blocks of the code, which are the blocks of
    the specification. *)
Lemma contents_blocks d res options ps cs :
  Forall2 (contentOf h d options) ps cs ->
  Forall2 (blockOf h d res options) ps (claimedBlocks res ps cs).
Proof.
  induction 1 as [|p c ps cs (raw & Hp & Hf) _ IH]; [constructor|].
  unfold claimedBlocks in *. cbn [zip_with]. apply List.Forall2_cons; [|exact IH].
  exists raw, c. split; [exact Hp|]. split; [exact Hf|].
  symmetry. apply scriptTag_claimed.
Qed.

End RunFacts.

(** * Identifiers: the patterns of the fragment *)

Section RegexFacts.
Import JsString Regex.

Lemma matchAt_bol r s : matchAt (Seq Bol r) 0 s = matchAt r 0 s.
Proof. reflexivity. Qed.

Lemma execFrom_bol_later r s : forall i, execFrom (Seq Bol r) (S i) s = None.
Proof.
  induction s as [|c s IH]; intros i; [reflexivity|].
  simpl. unfold matchAt. simpl. apply IH.
Qed.

(** A pattern of the shape [^r] strips at the start or not at all. *)
Lemma replace_anchored r path :
  replace path (Seq Bol r) [] = stripAnchored r path.
Proof.
  unfold replace, stripAnchored, exec.
  destruct path as [|c path]; unfold execFrom; fold execFrom; rewrite matchAt_bol.
  - destruct (matchAt r 0 []); reflexivity.
  - destruct (matchAt r 0 (c :: path)); [reflexivity|].
    by rewrite execFrom_bol_later.
Qed.

(** Each base is applied to the result of the previous one. *)
Lemma relPathOf_cons re res path :
  relPathOf (re :: res) path = relPathOf res (re path).
Proof. reflexivity. Qed.

Lemma relPathOf_anchored rs path :
  relPathOf (map (fun r => compiled (Seq Bol r)) rs) path = identifierSpec rs path.
Proof.
  revert path. induction rs as [|r rs IH]; intros path; [reflexivity|].
  cbn [map]. rewrite relPathOf_cons.
  change (compiled (Seq Bol r) path) with (replace path (Seq Bol r) []).
  rewrite replace_anchored, IH. reflexivity.
Qed.

Lemma replace_no_match re path :
  exec re path = None -> replace path re [] = path.
Proof. unfold replace. by intros ->. Qed.

Lemma relPathOf_no_match res path :
  Forall (fun re => exec re path = None) res ->
  relPathOf (map compiled res) path = path.
Proof.
  induction 1 as [|re res Hre _ IH]; [reflexivity|].
  cbn [map]. rewrite relPathOf_cons.
  change (compiled re path) with (replace path re []). by rewrite replace_no_match.
Qed.

Lemma parseDisjunction_S f s :
  parseDisjunction (S f) s =
    match parseAlternative f s with
    | Some (r, c :: rest) =>
        if isCh "|" c then
          match parseDisjunction f rest with
          | Some (r2, rest2) => Some (Alt r r2, rest2)
          | None => None
          end
        else Some (r, c :: rest)
    | other => other
    end.
Proof. reflexivity. Qed.

Lemma parseAlternative_caret f s :
  parseAlternative (S (S f)) (94%N :: s) =
    match parseAlternative (S f) s with
    | Some (r, rest) => Some (Seq Bol r, rest)
    | None => None
    end.
Proof. reflexivity. Qed.

(** The base [app/] of the specification's example. *)
Lemma relPathOf_app_example :
  exists re, parse (t "^app/") = Some re /\
    relPathOf [compiled re] (t "app/widgets/x.html") = t "widgets/x.html" /\
    relPathOf [compiled re] (t "lib/app/x.html") = t "lib/app/x.html".
Proof. eexists. repeat split; vm_compute; reflexivity. Qed.

(** The pattern ['^' + base], once parsed, is [^r] when the base has no
    alternation at its top level, and [^r|r2] otherwise: the assertion
    belongs to the first alternative only. *)
Lemma parse_caret b re :
  parse (t "^" ++ b) = Some re ->
  (exists r, re = Seq Bol r) \/ (exists r r2, re = Alt (Seq Bol r) r2).
Proof.
  unfold parse. change (t "^" ++ b) with (94%N :: b).
  replace (4 * length (94%N :: b) + 8)%nat
    with (S (S (S (4 * length b + 9)))) by (simpl; lia).
  generalize (4 * length b + 9)%nat. intros n.
  rewrite parseDisjunction_S, parseAlternative_caret.
  destruct (parseAlternative (S n) b) as [[r rest]|]; [|discriminate].
  destruct rest as [|c rest].
  - intros [= <-]. left. eauto.
  - destruct (isCh "|" c); [|discriminate].
    destruct (parseDisjunction (S (S n)) rest) as [[r2 rest2]|]; [|discriminate].
    destruct rest2; [|discriminate]. intros [= <-]. right. eauto.
Qed.

(** A match only moves forward: the continuation is entered at a later
    index, with the text that is left there. *)
Lemma matchR_advance r : forall i s k e,
  matchR r i s k = Some e ->
  exists n, (n <= length s)%nat /\ k (i + n)%nat (drop n s) = Some e.
Proof.
  assert (forall (r' : regex),
    (forall i s k e, matchR r' i s k = Some e ->
       exists n, (n <= length s)%nat /\ k (i + n)%nat (drop n s) = Some e) ->
    forall k fuel i s e,
      (fix loop (n : nat) (i : nat) (s : text) : option nat :=
         match n with
         | O => k i s
         | S n' =>
             match matchR r' i s
                     (fun i' s' => if Nat.eqb i' i then None else loop n' i' s')
             with
             | Some e => Some e
             | None => k i s
             end
         end) fuel i s = Some e ->
      exists n, (n <= length s)%nat /\ k (i + n)%nat (drop n s) = Some e) as Hloop.
  { intros r' IH k fuel. induction fuel as [|fuel IHf]; intros i s e H.
    - exists 0%nat. rewrite Nat.add_0_r. split; [lia | exact H].
    - destruct (matchR r' i s _) as [e'|] eqn:E.
      + injection H as ->. apply IH in E as (n1 & Hn1 & E).
        destruct (Nat.eqb (i + n1) i); [discriminate|].
        apply IHf in E as (n2 & Hn2 & E). rewrite length_drop in Hn2.
        exists (n1 + n2)%nat. rewrite drop_drop, <- Nat.add_assoc in E.
        split; [lia | exact E].
      + exists 0%nat. rewrite Nat.add_0_r. split; [lia | exact H]. }
  induction r as [|c| | | |r1 IH1 r2 IH2|r1 IH1 r2 IH2|r' IH|r' IH|r' IH];
    intros i s k e H; cbn [matchR] in H.
  - exists 0%nat. rewrite Nat.add_0_r. split; [lia | exact H].
  - destruct s as [|a s]; [discriminate|]. destruct (N.eqb a c); [|discriminate].
    exists 1%nat. rewrite Nat.add_1_r. split; [simpl; lia | exact H].
  - destruct s as [|a s]; [discriminate|]. destruct (isLineTerminator a); [discriminate|].
    exists 1%nat. rewrite Nat.add_1_r. split; [simpl; lia | exact H].
  - destruct (Nat.eqb i 0); [|discriminate].
    exists 0%nat. rewrite Nat.add_0_r. split; [lia | exact H].
  - destruct s; [|discriminate].
    exists 0%nat. rewrite Nat.add_0_r. split; [simpl; lia | exact H].
  - apply IH1 in H as (n1 & Hn1 & H). apply IH2 in H as (n2 & Hn2 & H).
    rewrite length_drop in Hn2.
    exists (n1 + n2)%nat. rewrite drop_drop, <- Nat.add_assoc in H.
    split; [lia | exact H].
  - destruct (matchR r1 i s k) as [e'|] eqn:E.
    + injection H as ->. by apply IH1.
    + by apply IH2.
  - exact (Hloop r' IH k (S (length s)) i s e H).
  - apply IH in H as (n1 & Hn1 & H).
    destruct (Hloop r' IH k (S (length (drop n1 s))) (i + n1)%nat (drop n1 s) e H)
      as (n2 & Hn2 & H2). clear H. rename H2 into H.
    rewrite length_drop in Hn2.
    exists (n1 + n2)%nat. rewrite drop_drop, <- Nat.add_assoc in H.
    split; [lia | exact H].
  - destruct (matchR r' i s _) as [e'|] eqn:E.
    + injection H as ->. apply IH in E as (n1 & Hn1 & E).
      destruct (Nat.eqb (i + n1) i); [discriminate|]. eauto.
    + exists 0%nat. rewrite Nat.add_0_r. split; [lia | exact H].
Qed.

Lemma execFrom_bounds r : forall s i0 i e,
  execFrom r i0 s = Some (i, e) ->
  (i0 <= i /\ i <= e /\ e <= i0 + length s)%nat.
Proof.
  induction s as [|c s IH]; intros i0 i e; simpl.
  - destruct (matchAt r i0 []) as [e'|] eqn:E; [|discriminate].
    intros [= <- <-]. apply matchR_advance in E as (n & Hn & [= <-]). simpl in *. lia.
  - destruct (matchAt r i0 (c :: s)) as [e'|] eqn:E.
    + intros [= <- <-]. apply matchR_advance in E as (n & Hn & [= <-]). simpl in *. lia.
    + intros H. apply IH in H. lia.
Qed.

(** The segment that [replace] removes. *)
Lemma replace_segment re path :
  exists a x b,
    path = a ++ x ++ b /\ replace path re [] = a ++ b.
Proof.
  unfold replace, exec. destruct (execFrom re 0 path) as [[i e]|] eqn:E.
  - apply execFrom_bounds in E as (_ & Hie & He). simpl in He.
    exists (take i path), (take (e - i) (drop i path)), (drop e path).
    split; [|reflexivity].
    rewrite <- (take_drop i path) at 1. f_equal.
    rewrite <- (take_drop (e - i) (drop i path)) at 1. f_equal.
    rewrite drop_drop. f_equal. lia.
  - by exists [], [], path.
Qed.

Lemma literal_match b : forall i s k,
  matchR (literal b) i s k =
    if startsWith b s then k (i + length b)%nat (drop (length b) s) else None.
Proof.
  induction b as [|c b IH]; intros i s k.
  - simpl. by rewrite Nat.add_0_r.
  - cbn [literal matchR]. destruct s as [|a s]; [reflexivity|].
    cbn [startsWith length drop]. rewrite (N.eqb_sym c a).
    destruct (N.eqb a c); [|reflexivity].
    rewrite IH. cbn [andb]. by rewrite Nat.add_succ_comm.
Qed.

Lemma replace_literal b path :
  replace path (Seq Bol (literal b)) [] = stripPrefix path b.
Proof.
  rewrite replace_anchored. unfold stripAnchored, stripPrefix, matchAt.
  rewrite literal_match. by destruct (startsWith b path).
Qed.

Lemma plain_char c x :
  isSyntaxChar c = false ->
  In x ["^"; "$"; "\"; "."; "*"; "+"; "?"; "("; ")"; "["; "]"; "{"; "}"; "|"]%char ->
  isCh x c = false.
Proof.
  unfold isSyntaxChar. intros H Hx.
  repeat (apply orb_false_elim in H as [H ?]).
  cbn [In] in Hx. intuition (subst; assumption).
Qed.

Lemma parseQuantifier_plain a s :
  allPlain s = true -> parseQuantifier a s = (a, s).
Proof.
  destruct s as [|c s]; [reflexivity|]. cbn [allPlain].
  intros [Hc%negb_true_iff _]%andb_true_iff. unfold parseQuantifier.
  rewrite !(plain_char c) by (try exact Hc; cbn [In]; tauto). reflexivity.
Qed.

Lemma parseTerm_plain f c s :
  isSyntaxChar c = false ->
  parseTerm (S f) (c :: s) = Some (parseQuantifier (Chr c) s).
Proof.
  intros Hc. cbn [parseTerm].
  rewrite !(plain_char c) by (try exact Hc; cbn [In]; tauto). by rewrite Hc.
Qed.

Lemma parseAlternative_plain_step f c s :
  isSyntaxChar c = false ->
  parseAlternative (S f) (c :: s) =
    match parseTerm f (c :: s) with
    | Some (a, rest) =>
        match parseAlternative f rest with
        | Some (r, rest') => Some (Seq a r, rest')
        | None => None
        end
    | None => None
    end.
Proof.
  intros Hc.
  change (parseAlternative (S f) (c :: s)) with
    (if isCh "|" c || isCh ")" c then Some (Empty, c :: s)
     else match parseTerm f (c :: s) with
          | Some (a, rest) =>
              match parseAlternative f rest with
              | Some (r, rest') => Some (Seq a r, rest')
              | None => None
              end
          | None => None
          end).
  by rewrite !(plain_char c) by (try exact Hc; cbn [In]; tauto).
Qed.

Lemma parseAlternative_plain b : forall n,
  allPlain b = true ->
  (2 * length b + 1 <= n)%nat ->
  parseAlternative n b = Some (literal b, []).
Proof.
  induction b as [|c b IH]; intros n Hb Hn.
  - destruct n; [simpl in Hn; lia | reflexivity].
  - cbn [allPlain] in Hb. apply andb_true_iff in Hb as [Hc Hb].
    apply negb_true_iff in Hc. simpl length in Hn.
    destruct n as [|[|n]]; try lia.
    rewrite (parseAlternative_plain_step _ _ _ Hc), (parseTerm_plain _ _ _ Hc).
    rewrite (parseQuantifier_plain _ _ Hb).
    rewrite IH; [reflexivity | exact Hb | lia].
Qed.

Lemma parse_plain b :
  allPlain b = true -> parse (t "^" ++ b) = Some (Seq Bol (literal b)).
Proof.
  intros Hb. unfold parse. change (t "^" ++ b) with (94%N :: b).
  replace (4 * length (94%N :: b) + 8)%nat
    with (S (S (S (4 * length b + 9)))) by (simpl; lia).
  rewrite parseDisjunction_S, parseAlternative_caret.
  rewrite (parseAlternative_plain b _ Hb) by lia. reflexivity.
Qed.

Lemma engine_plain b :
  allPlain b = true ->
  engine (t "^" ++ b) = Some (compiled (Seq Bol (literal b))).
Proof. intros Hb. unfold engine. by rewrite (parse_plain b Hb). Qed.

End RegexFacts.

(** * The extension *)

Section ExtensionFacts.
Import JsString Path.

Lemma scanFound_shift c s i st :
  scanFound s (i + 1) st -> scanFound (c :: s) i st.
Proof.
  intros [He Hd]. split.
  - destruct He as [He|He]; [by left | right]. simpl length. lia.
  - destruct Hd as [Hd|(Hsd & rest & Hr)]; [by left | right]. split; [lia|].
    exists rest. replace (Z.to_nat (startDot st - i)) with (S (Z.to_nat (startDot st - (i + 1))))
      by lia. exact Hr.
Qed.

Lemma scanFound_loop s : forall i, 0 <= i -> scanFound s i (loop s i).
Proof.
  induction s as [|c s IH]; intros i Hi.
  - split; by left.
  - cbn [loop]. specialize (IH (i + 1) ltac:(lia)).
    destruct (scanFound_shift c s i _ IH) as [He Hd]. clear IH.
    destruct (loop s (i + 1)) as [sd sp en ms pd stp].
    unfold step, scanFound in *.
    cbn [stopped matchedSlash end_ startDot startPart preDotState] in *.
    repeat match goal with
           | |- context [if ?b then _ else _] =>
               destruct b eqn:?;
               cbn [stopped matchedSlash end_ startDot startPart preDotState]
           end.
    all: repeat match goal with
                | H : (_ =? _) = true |- _ => apply Z.eqb_eq in H
                | H : (_ =? _) = false |- _ => apply Z.eqb_neq in H
                | H : negb _ = true |- _ => apply negb_true_iff in H
                | H : negb _ = false |- _ => apply negb_false_iff in H
                | H : N.eqb _ _ = true |- _ => apply N.eqb_eq in H
                end.
    all: simpl length in *.
    all: split;
      [ destruct He; first [left; lia | right; lia]
      | destruct He; destruct Hd as [Hd|(Hsd & rest & Hr)];
        first [ left; lia
              | right; split; [lia|];
                first [ exists rest; exact Hr
                      | subst c; exists s;
                        replace (Z.to_nat (i - i)) with 0%nat by lia; reflexivity ] ] ].
Qed.

(** An extension is empty or begins with the dot. *)
Lemma extname_shape path :
  extname path = [] \/ exists e, extname path = 46%N :: e.
Proof.
  unfold extname. pose proof (scanFound_loop path 0 ltac:(lia)) as [He Hd].
  destruct (loop path 0) as [sd sp en ms pd stp].
  cbn [stopped matchedSlash end_ startDot startPart preDotState] in *.
  destruct (Z.eqb_spec sd (-1)) as [?|Hsd]; [by left|].
  destruct (Z.eqb_spec en (-1)) as [?|Hen]; [by left|].
  cbn [orb]. destruct (_ || _); [by left | right].
  destruct He as [?|He]; [done|]. destruct Hd as [?|(Hsd' & rest & Hr)]; [done|].
  unfold slice. cbn zeta. rewrite !clamp_inside by lia.
  rewrite Z.sub_0_r in Hr. rewrite Hr.
  replace (Z.to_nat (Z.max (en - sd) 0)) with (S (Z.to_nat (en - sd - 1))) by lia.
  cbn [take]. eauto.
Qed.

End ExtensionFacts.

(** * Running the helper again on its own output *)

Section SecondRunFacts.
Import JsString.

Lemma startsWith_long m : forall p x,
  (length m <= length p)%nat ->
  startsWith m (p ++ x) = startsWith m p.
Proof.
  induction m as [|a m IH]; intros p x Hlen; [reflexivity|].
  destruct p as [|b p]; [simpl in Hlen; lia|].
  cbn [app startsWith]. rewrite IH; [reflexivity|]. simpl in Hlen. lia.
Qed.

(** The marker begins with its only [<]: it cannot start inside a short
    text and run into a [<]. *)
Lemma marker_no_overlap p y :
  p <> [] -> (length p < 7)%nat ->
  startsWith marker (p ++ 60%N :: y) = false.
Proof.
  intros Hp Hlen. change marker with [60; 47; 98; 111; 100; 121; 62]%N.
  destruct p as [|c1 [|c2 [|c3 [|c4 [|c5 [|c6 [|c7 p]]]]]]]; [done|..];
    simpl in Hlen; try lia; cbn [app startsWith];
    repeat (match goal with
            | |- context [N.eqb ?a ?b] =>
                first [ is_var b; destruct (N.eqb a b)
                      | let v := eval vm_compute in (N.eqb a b) in
                        change (N.eqb a b) with v ]
            end; cbn [andb]); reflexivity.
Qed.

Lemma indexOfFrom_head m s k : startsWith m s = true -> indexOfFrom m s k = k.
Proof. intros H. destruct s; simpl; by rewrite H. Qed.

Lemma indexOfFrom_skip m pre rest : forall k,
  (forall p1 p2, pre = p1 ++ p2 -> p2 <> [] ->
     startsWith m (p2 ++ rest) = false) ->
  indexOfFrom m (pre ++ rest) k = indexOfFrom m rest (k + Z.of_nat (length pre)).
Proof.
  induction pre as [|c pre IH]; intros k H.
  - simpl. by rewrite Z.add_0_r.
  - change ((c :: pre) ++ rest) with (c :: (pre ++ rest)). cbn [indexOfFrom].
    change (c :: (pre ++ rest)) with ((c :: pre) ++ rest).
    rewrite (H [] (c :: pre)) by done.
    rewrite IH.
    + simpl length. f_equal. lia.
    + intros p1 p2 -> Hp2. by apply (H (c :: p1) p2).
Qed.

Lemma firstAt_suffix_free m s pre post p1 p2 :
  firstAt m s pre post -> pre = p1 ++ p2 -> p2 <> [] ->
  startsWith m (p2 ++ m ++ post) = false.
Proof.
  intros [Hs Hmin] -> Hp2.
  destruct (startsWith m (p2 ++ m ++ post)) eqn:E; [|reflexivity].
  apply startsWith_inv in E as [r Hr].
  specialize (Hmin p1 r). rewrite Hs, <- app_assoc, Hr in Hmin.
  specialize (Hmin eq_refl). rewrite length_app in Hmin.
  destruct p2; [done|]. simpl in Hmin. lia.
Qed.

(** After the insertion, the first marker is still the original one, when
    the inserted text holds no marker and begins with [<]. *)
Lemma indexOf_after_insert html pre post blocks :
  firstAt marker html pre post ->
  ~ occurs marker blocks ->
  blocks = [] \/ (exists b, blocks = 60%N :: b) ->
  indexOf (pre ++ blocks ++ marker ++ post) marker =
    Z.of_nat (length (pre ++ blocks)).
Proof.
  intros Hf Hclean Hshape. unfold indexOf.
  rewrite indexOfFrom_skip.
  - rewrite indexOfFrom_skip.
    + rewrite indexOfFrom_head by apply startsWith_app. rewrite length_app. lia.
    + intros b1 b2 -> Hb2.
      destruct (le_lt_dec 7 (length b2)) as [Hlen|Hlen].
      * rewrite startsWith_long by exact Hlen.
        destruct (startsWith marker b2) eqn:E; [|reflexivity].
        destruct Hclean. apply startsWith_inv in E as [r ->].
        exists b1, r. reflexivity.
      * by apply (marker_no_overlap b2 (t "/body>" ++ post)).
  - intros p1 p2 Hpre Hp2.
    destruct (le_lt_dec 7 (length p2)) as [Hlen|Hlen].
    + rewrite startsWith_long by exact Hlen.
      rewrite <- (startsWith_long marker p2 (marker ++ post)) by exact Hlen.
      by apply (firstAt_suffix_free _ _ _ _ _ _ Hf Hpre).
    + destruct Hshape as [->|[b ->]].
      * by apply (firstAt_suffix_free _ _ _ _ _ _ Hf Hpre).
      * by apply marker_no_overlap.
Qed.

Lemma join_blocks_shape h d res options ps tags :
  Forall2 (blockOf h d res options) ps tags ->
  join nl tags = [] \/ exists b, join nl tags = 60%N :: b.
Proof.
  intros [|p tg ps' tags' (raw & c & _ & _ & ->) _]; [by left | right].
  destruct tags'; eexists; reflexivity.
Qed.

End SecondRunFacts.

(** * The task: options and targets *)

Section TaskFacts.
Import JsString.
Variable h : host.
Variable cyan : text -> text.

Lemma forEachFile_app options fs1 fs2 : forall w out,
  forEachFile h cyan options (fs1 ++ fs2) w out =
    match forEachFile h cyan options fs1 w out with
    | (Ok _, w1, out1) => forEachFile h cyan options fs2 w1 out1
    | (Throw e, w1, out1) => (Throw e, w1, out1)
    end.
Proof.
  induction fs1 as [|f fs1 IH]; intros w out; [reflexivity|].
  cbn [app forEachFile].
  destruct (bundlecache h (dest f) (src f) options w) as [[x|e] w1]; [apply IH | reflexivity].
Qed.

Lemma forEachFile_ok_lines options fs : forall w out w' out',
  forEachFile h cyan options fs w out = (Ok tt, w', out') ->
  out' = out ++ map (updated cyan) fs.
Proof.
  induction fs as [|f fs IH]; intros w out w' out'; cbn [forEachFile map].
  - intros [= <- <-]. by rewrite app_nil_r.
  - destruct (bundlecache h (dest f) (src f) options w) as [[x|e] w1]; [|discriminate].
    intros H. apply IH in H. by rewrite <- app_assoc in H.
Qed.

Lemma mapM_ext {A B} (f g : A -> M B) l :
  (forall x w, f x w = g x w) -> forall w, mapM f l w = mapM g l w.
Proof.
  intros Hfg. induction l as [|x l IH]; intros w; [reflexivity|].
  cbn [mapM]. unfold bind at 1 3. rewrite Hfg.
  destruct (g x w) as [[y|e] w1]; [|reflexivity].
  unfold bind. by rewrite IH.
Qed.

(** Two option records with the same filters whose compiled bases compute
    the same identifiers give the same run. *)
Lemma bundlecache_same_identifiers destination files o o' res res' w :
  baseRe h (base o) = Ok res ->
  baseRe h (base o') = Ok res' ->
  filters o = filters o' ->
  (forall p, relPathOf res p = relPathOf res' p) ->
  bundlecache h destination files o w = bundlecache h destination files o' w.
Proof.
  intros Hres Hres' Hf Hid. destruct w as [d l].
  destruct (d !! resolve h destination) as [[raw|]|] eqn:Hdest.
  - rewrite (bundlecache_after_checks h _ _ _ _ _ _ _ Hres Hdest).
    rewrite (bundlecache_after_checks h _ _ _ _ _ _ _ Hres' Hdest).
    rewrite (mapM_ext (tagOf h res o) (tagOf h res' o')); [reflexivity|].
    intros p w. unfold tagOf. by rewrite Hid, Hf.
  - rewrite (bundlecache_not_file h _ _ _ _ _ _ Hres)
      by (intros c; rewrite Hdest; discriminate).
    by rewrite (bundlecache_not_file h _ _ _ _ _ _ Hres')
      by (intros c; rewrite Hdest; discriminate).
  - rewrite (bundlecache_not_file h _ _ _ _ _ _ Hres)
      by (intros c; rewrite Hdest; discriminate).
    by rewrite (bundlecache_not_file h _ _ _ _ _ _ Hres')
      by (intros c; rewrite Hdest; discriminate).
Qed.

Lemma forEachFile_ext o o' fs :
  (forall f w, bundlecache h (dest f) (src f) o w = bundlecache h (dest f) (src f) o' w) ->
  forall w out, forEachFile h cyan o fs w out = forEachFile h cyan o' fs w out.
Proof.
  intros Hoo. induction fs as [|f fs IH]; intros w out; [reflexivity|].
  cbn [forEachFile]. rewrite Hoo.
  destruct (bundlecache h (dest f) (src f) o' w) as [[x|e] w1]; [apply IH | reflexivity].
Qed.

End TaskFacts.

(** * The claims of the specification *)

Section ClaimFacts.
Import JsString.
Variable h : host.

Lemma contentOf_blockOf d res options p c :
  contentOf h d options p c ->
  blockOf h d res options p (claimedBlock (relPathOf res p) c).
Proof.
  intros (raw & Hp & Hf). exists raw, c.
  split; [exact Hp|]. split; [exact Hf|]. symmetry. apply scriptTag_claimed.
Qed.

(** The successful run in the words of the specification. *)
Lemma bundlecache_claimed destination files options d l res raw contents :
  baseRe h (base options) = Ok res ->
  d !! resolve h destination = Some (File raw) ->
  Forall2 (contentOf h d options)
    (List.filter (existsSync d) (expandAll h d (templatesOf files))) contents ->
  let existing := List.filter (existsSync d) (expandAll h d (templatesOf files)) in
  let html := fileText h raw in
  let idx := indexOf html marker in
  let out := slice html 0 (Some idx)
               ++ claimedJoin (claimedBlocks res existing contents)
               ++ slice html idx None in
  bundlecache h destination files options (World d l) =
    (Ok out,
     World (<[resolve h destination := File (encode h out)]> d)
           (l ++ map EvRead existing
              ++ [EvRead (resolve h destination);
                  EvWrite (resolve h destination) out])).
Proof.
  intros Hres Hdest Hsrc. cbn zeta.
  rewrite (bundlecache_ok h _ _ _ _ _ _ _ _ Hres Hdest (contents_blocks h _ res _ _ _ Hsrc)).
  unfold spliced. by rewrite join_claimed.
Qed.

End ClaimFacts.

Section Claims.
Import JsString.

(** C1. The claim asks for a MissingInsertionPoint error and an untouched
    destination when the text holds no [</body>].  On the destination
    [<html></html>] the helper reports nothing: it returns normally and
    overwrites the file with the block spliced in before the final [>]. *)
Theorem C1_missing_marker_is_not_reported :
  ~ occurs marker (t "<html></html>") /\
  bundlecache exampleHost (t "index.html") (OnePattern (t "a.html")) noOptions
    (World noBodyDisk []) =
    (Ok noBodyOutput,
     World (<[t "/index.html" := File (Utf8.encode noBodyOutput)]> noBodyDisk)
           [EvRead (t "a.html"); EvRead (t "/index.html");
            EvWrite (t "/index.html") noBodyOutput]) /\
  noBodyOutput <> t "<html></html>" /\
  Utf8.encode noBodyOutput = "<html></html" +:+ exampleBlockBytes +:+ ">".
Proof.
  split; [|split; [|split]].
  - apply indexOf_no_occurs. vm_compute. reflexivity.
  - vm_compute. reflexivity.
  - vm_compute. discriminate.
  - vm_compute. reflexivity.
Qed.

(** C2. The tag block of a resolved file is exactly
    [<script type="text/ng-template" id="], the identifier, [">], a line
    feed, the content, a line feed and [</script>]; the blocks, one line
    feed between neighbours, go immediately before the first [</body>] of
    the destination text.  In particular the destination
    [<html><body>X</body></html>] with the one source [a.html] holding
    [hello], no base and no filter, gives the text of the specification. *)
Theorem C2_tag_blocks_before_first_marker
    h destination files options d l res raw contents
    (Hres : baseRe h (base options) = Ok res)
    (Hdest : d !! resolve h destination = Some (File raw))
    (Hmark : occurs (t "</body>") (fileText h raw))
    (Hsrc : Forall2 (contentOf h d options)
              (List.filter (existsSync d) (expandAll h d (templatesOf files))) contents) :
  let existing := List.filter (existsSync d) (expandAll h d (templatesOf files)) in
  Forall2 (fun p c =>
             (tagOf h res options p (World d l)).1 =
               Ok (t "<script type=" ++ [34%N] ++ t "text/ng-template" ++ [34%N]
                     ++ t " id=" ++ [34%N] ++ relPathOf res p ++ [34%N] ++ t ">" ++ [10%N]
                     ++ c ++ [10%N] ++ t "</script>"))
    existing contents /\
  (exists pre post,
      firstAt (t "</body>") (fileText h raw) pre post /\
      (bundlecache h destination files options (World d l)).1 =
        Ok (pre ++ claimedJoin (claimedBlocks res existing contents)
              ++ t "</body>" ++ post)) /\
  (bundlecache exampleHost (t "index.html") (OnePattern (t "a.html")) noOptions
     (World exampleDisk [])).1 =
    Ok (t "<html><body>X<script type=" ++ [34%N] ++ t "text/ng-template" ++ [34%N]
          ++ t " id=" ++ [34%N] ++ t "a.html" ++ [34%N] ++ t ">" ++ [10%N]
          ++ t "hello" ++ [10%N] ++ t "</script></body></html>").
Proof.
  intros existing. subst existing. split; [|split].
  - eapply Forall2_impl; [exact Hsrc|].
    intros p c Hc. by rewrite (tagOf_ok h _ _ _ _ _ _ (contentOf_blockOf h _ res _ _ _ Hc)).
  - destruct (spliced_found (fileText h raw)
                (claimedBlocks res
                   (List.filter (existsSync d) (expandAll h d (templatesOf files)))
                   contents) Hmark)
      as (pre & post & Hf & Hs).
    exists pre, post. split; [exact Hf|].
    rewrite (bundlecache_ok h _ _ _ _ _ _ _ _ Hres Hdest (contents_blocks h _ res _ _ _ Hsrc)).
    cbn [fst]. f_equal. rewrite Hs. by rewrite join_claimed.
  - vm_compute. reflexivity.
Qed.

Lemma C2_witness :
  exists pre post,
    firstAt (t "</body>") (t "<html><body>X</body></html>") pre post /\
    (bundlecache exampleHost (t "index.html") (OnePattern (t "a.html")) noOptions
       (World exampleDisk [])).1 =
      Ok (pre ++ claimedJoin [claimedBlock (t "a.html") (t "hello")]
            ++ t "</body>" ++ post).
Proof.
  refine (proj1 (proj2 (C2_tag_blocks_before_first_marker
    exampleHost (t "index.html") (OnePattern (t "a.html")) noOptions exampleDisk []
    [] "<html><body>X</body></html>" [t "hello"] _ _ _ _))).
  - reflexivity.
  - vm_compute. reflexivity.
  - exists (t "<html><body>X"), (t "</html>"). reflexivity.
  - assert (List.filter (existsSync exampleDisk)
              (expandAll exampleHost exampleDisk (templatesOf (OnePattern (t "a.html"))))
            = [t "a.html"]) as -> by (vm_compute; reflexivity).
    apply List.Forall2_cons; [|apply List.Forall2_nil].
    exists "hello". split; vm_compute; reflexivity.
Defined.

(** C3, as claimed, fails on the bytes of the file.  A destination that
    begins with a byte order mark loses it, so the part before the
    insertion point is not the original prefix; a destination in Latin-1
    gets U+FFFD for the byte 233 after the marker, so the part from the
    marker on is not byte-for-byte the original. *)
Lemma C3_counterexample :
  disk (bundlecache exampleHost (t "index.html") (OnePattern (t "a.html")) noOptions
          (World bomDisk [])).2 !! t "/index.html" =
    Some (File ("<html><body>X" +:+ exampleBlockBytes +:+ "</body></html>")) /\
  ~ keptAround
      (Utf8.bytesOfString (bom +:+ "<html><body>X</body></html>"))
      (Utf8.bytesOfString ("<html><body>X" +:+ exampleBlockBytes +:+ "</body></html>")) /\
  disk (bundlecache exampleHost (t "index.html") (OnePattern (t "a.html")) noOptions
          (World latin1Disk [])).2 !! t "/index.html" =
    Some (File ("<html><body>X" +:+ exampleBlockBytes +:+ "</body>caf"
                  +:+ replacement +:+ "</html>")) /\
  ~ keptAround
      (Utf8.bytesOfString ("<html><body>X</body>caf" +:+ eAcute +:+ "</html>"))
      (Utf8.bytesOfString ("<html><body>X" +:+ exampleBlockBytes +:+ "</body>caf"
                             +:+ replacement +:+ "</html>")).
Proof.
  split; [vm_compute; reflexivity|]. split; [|split; [vm_compute; reflexivity|]].
  - intros (pre & post & ins & Hf & Ha).
    assert (firstAt (t "</body>")
              (Utf8.bytesOfString (bom +:+ "<html><body>X</body></html>"))
              (Utf8.bytesOfString (bom +:+ "<html><body>X")) (t "</html>")) as Hf0
      by (apply firstAt_index; vm_compute; reflexivity).
    destruct (firstAt_unique _ _ _ _ _ _ Hf Hf0) as [-> ->].
    vm_compute in Ha. discriminate Ha.
  - intros (pre & post & ins & Hf & Ha).
    assert (firstAt (t "</body>")
              (Utf8.bytesOfString ("<html><body>X</body>caf" +:+ eAcute +:+ "</html>"))
              (t "<html><body>X")
              (Utf8.bytesOfString ("caf" +:+ eAcute +:+ "</html>"))) as Hf0
      by (apply firstAt_index; vm_compute; reflexivity).
    destruct (firstAt_unique _ _ _ _ _ _ Hf Hf0) as [-> ->].
    apply (f_equal (@rev N)) in Ha. rewrite !rev_app_distr in Ha.
    vm_compute in Ha. discriminate Ha.
Qed.

(** C3, amended.  When the text of the destination, as [grunt.file.read]
    returns it, holds the marker: a run that succeeds returns that text
    with something inserted immediately before its first [</body>], the
    part before and the part from the marker on kept code unit for code
    unit, and the file then holds the encoding of the returned text; a run
    that throws leaves the file as it was. *)
Theorem C3_text_around_marker_preserved
    h destination files options d l raw
    (Hdest : d !! resolve h destination = Some (File raw))
    (Hmark : occurs (t "</body>") (fileText h raw)) :
  let run := bundlecache h destination files options (World d l) in
  match run.1 with
  | Ok out =>
      keptAround (fileText h raw) out /\
      disk run.2 !! resolve h destination = Some (File (encode h out))
  | Throw _ =>
      disk run.2 !! resolve h destination = Some (File raw)
  end.
Proof.
  intros run. destruct run as [r w'] eqn:Hrun. subst run.
  destruct (bundlecache_effects _ _ _ _ _ _ _ _ Hrun)
    as [(e & evs & -> & -> & _) | (res & raw' & tags & _ & Hdest' & _ & -> & ->)];
    cbn [fst snd disk].
  - exact Hdest.
  - rewrite Hdest in Hdest'. injection Hdest' as <-.
    split; [|by rewrite lookup_insert_eq].
    destruct (spliced_found (fileText h raw) tags Hmark) as (pre & post & Hf & Hs).
    exists pre, post, (join nl tags). split; [exact Hf | exact Hs].
Qed.

Lemma C3_witness :
  keptAround (t "<html><body>X</body></html>")
    (t "<html><body>X" ++ claimedBlock (t "a.html") (t "hello") ++ t "</body></html>") /\
  disk (bundlecache exampleHost (t "index.html") (OnePattern (t "a.html")) noOptions
          (World bomDisk [])).2 !! t "/index.html" =
    Some (File ("<html><body>X" +:+ exampleBlockBytes +:+ "</body></html>")).
Proof.
  pose proof (C3_text_around_marker_preserved
    exampleHost (t "index.html") (OnePattern (t "a.html")) noOptions bomDisk []
    (bom +:+ "<html><body>X</body></html>")) as H.
  cbn zeta in H.
  assert ((bundlecache exampleHost (t "index.html") (OnePattern (t "a.html")) noOptions
             (World bomDisk [])).1 =
          Ok (t "<html><body>X" ++ claimedBlock (t "a.html") (t "hello")
                ++ t "</body></html>")) as Hrun by (vm_compute; reflexivity).
  rewrite Hrun in H. destruct H as [Hk Hd].
  - vm_compute. reflexivity.
  - exists (t "<html><body>X"), (t "</html>"). reflexivity.
  - split; [exact Hk|]. vm_compute. reflexivity.
Defined.

(** C4. The claim has every base stripped as a start-anchored pattern.
    With the base [app/|src/] the helper builds [^app/|src/], whose second
    alternative is not anchored: the path [lib/src/x.html] loses [src/]
    from its middle, where the anchored strip leaves it unchanged. *)
Theorem C4_alternation_base_strips_inside_path :
  exists b re,
    Regex.parse (t "app/|src/") = Some b /\
    baseRe exampleHost (base altOptions) = Ok [re] /\
    relPathOf [re] (t "lib/src/x.html") = t "lib/x.html" /\
    identifierSpec [b] (t "lib/src/x.html") = t "lib/src/x.html" /\
    (tagOf exampleHost [re] altOptions (t "lib/src/x.html")
       (World (<[t "lib/src/x.html" := File "hello"]> ∅) [])).1 =
      Ok (tagOpen ++ t "lib/x.html" ++ tagMid ++ t "hello" ++ tagClose).
Proof.
  destruct (Regex.parse (t "app/|src/")) as [b|] eqn:Hb; [|vm_compute in Hb; discriminate].
  destruct (baseRe exampleHost (base altOptions)) as [[|re [|? ?]]|] eqn:Hre;
    try (vm_compute in Hre; discriminate).
  exists b, re. split; [reflexivity|]. split; [reflexivity|].
  vm_compute in Hb. injection Hb as <-.
  vm_compute in Hre. injection Hre as <-.
  split; [vm_compute; reflexivity|].
  split; vm_compute; reflexivity.
Qed.

(** C5. The content embedded for a readable file is the result of the
    filter registered for its extension (dot included) applied to the raw
    content, the text that [grunt.file.read] returns for the file (its
    bytes decoded, a leading byte order mark dropped); without a filter
    for that extension it is that text as it is. *)
Theorem C5_filter_by_extension
    h res options d l p raw
    (Hfile : d !! p = Some (File raw)) :
  (forall filter, filters options !! Path.extname p = Some filter ->
     tagOf h res options p (World d l) =
       (match filter (fileText h raw) with
        | Ok content => Ok (claimedBlock (relPathOf res p) content)
        | Throw e => Throw e
        end, World d (l ++ [EvRead p]))) /\
  (filters options !! Path.extname p = None ->
     tagOf h res options p (World d l) =
       (Ok (claimedBlock (relPathOf res p) (fileText h raw)), World d (l ++ [EvRead p]))).
Proof.
  split.
  - intros filter Hf. unfold tagOf. unfold bind at 1.
    rewrite (fileRead_file h _ _ _ _ Hfile). unfold bind, lift, ret, applyFilter.
    rewrite Hf. destruct (filter (fileText h raw)); [|reflexivity].
    by rewrite scriptTag_claimed.
  - intros Hf. unfold tagOf. unfold bind at 1.
    rewrite (fileRead_file h _ _ _ _ Hfile). unfold bind, lift, ret, applyFilter.
    by rewrite Hf, scriptTag_claimed.
Qed.

Lemma C5_witness :
  tagOf exampleHost [] twoOptions (t "lib/src/x.dust") (World twoDisk []) =
    (Ok (claimedBlock (t "lib/src/x.dust") (t "{bye}")),
     World twoDisk [EvRead (t "lib/src/x.dust")]) /\
  tagOf exampleHost [] twoOptions (t "app/widgets/x.html") (World twoDisk []) =
    (Ok (claimedBlock (t "app/widgets/x.html") (t "hello")),
     World twoDisk [EvRead (t "app/widgets/x.html")]) /\
  tagOf exampleHost [] noOptions (t "b.html") (World bomSourceDisk []) =
    (Ok (claimedBlock (t "b.html") (t "hello")),
     World bomSourceDisk [EvRead (t "b.html")]).
Proof.
  split; [|split].
  - refine (proj1 (C5_filter_by_extension exampleHost [] twoOptions twoDisk []
                     (t "lib/src/x.dust") "bye" _) braces _);
      vm_compute; reflexivity.
  - refine (proj2 (C5_filter_by_extension exampleHost [] twoOptions twoDisk []
                     (t "app/widgets/x.html") "hello" _) _);
      vm_compute; reflexivity.
  - refine (proj2 (C5_filter_by_extension exampleHost [] noOptions bomSourceDisk []
                     (t "b.html") (bom +:+ "hello") _) _);
      vm_compute; reflexivity.
Defined.




(** C7. The resolved list is the concatenation of the expansions of the
    patterns, in pattern order, nothing removed and nothing reordered; the
    tag blocks of the paths that exist are inserted in that order with
    exactly one line feed between neighbours. *)
Theorem C7_pattern_order_and_newlines
    h destination files options d l res raw contents
    (Hres : baseRe h (base options) = Ok res)
    (Hdest : d !! resolve h destination = Some (File raw))
    (Hsrc : Forall2 (contentOf h d options)
              (List.filter (existsSync d)
                 (concat (map (expand h d) (templatesOf files)))) contents) :
  let resolved := concat (map (expand h d) (templatesOf files)) in
  let existing := List.filter (existsSync d) resolved in
  let html := fileText h raw in
  let idx := indexOf html (t "</body>") in
  expandAll h d (templatesOf files) = resolved /\
  bundlecache h destination files options (World d l) =
    (Ok (slice html 0 (Some idx)
           ++ claimedJoin (claimedBlocks res existing contents)
           ++ slice html idx None),
     World (<[resolve h destination :=
                File (encode h (slice html 0 (Some idx)
                                  ++ claimedJoin (claimedBlocks res existing contents)
                                  ++ slice html idx None))]> d)
           (l ++ map EvRead existing
              ++ [EvRead (resolve h destination);
                  EvWrite (resolve h destination)
                    (slice html 0 (Some idx)
                       ++ claimedJoin (claimedBlocks res existing contents)
                       ++ slice html idx None)])).
Proof.
  intros resolved existing html idx. split; [apply expandAll_concat|].
  subst resolved existing html idx. rewrite <- expandAll_concat in *.
  exact (bundlecache_claimed h _ _ _ _ _ _ _ _ Hres Hdest Hsrc).
Qed.

Lemma C7_witness :
  (bundlecache exampleHost (t "index.html")
     (Patterns [t "lib/src/x.dust"; t "gone.html"; t "app/widgets/x.html";
                t "lib/src/x.dust"])
     twoOptions (World twoDisk [])).1 =
    Ok (t "<html><body>X"
        ++ (claimedBlock (t "lib/src/x.dust") (t "{bye}") ++ [10%N]
            ++ claimedBlock (t "widgets/x.html") (t "hello") ++ [10%N]
            ++ claimedBlock (t "lib/src/x.dust") (t "{bye}"))
        ++ t "</body></html>").
Proof.
  destruct (C7_pattern_order_and_newlines exampleHost (t "index.html")
    (Patterns [t "lib/src/x.dust"; t "gone.html"; t "app/widgets/x.html";
               t "lib/src/x.dust"])
    twoOptions twoDisk [] appRe
    "<html><body>X</body></html>"
    [t "{bye}"; t "hello"; t "{bye}"]) as (_ & Hrun).
  - vm_compute. reflexivity.
  - vm_compute. reflexivity.
  - assert (List.filter (existsSync twoDisk)
              (concat (map (expand exampleHost twoDisk) (templatesOf
                 (Patterns [t "lib/src/x.dust"; t "gone.html"; t "app/widgets/x.html";
                            t "lib/src/x.dust"]))))
            = [t "lib/src/x.dust"; t "app/widgets/x.html"; t "lib/src/x.dust"]) as ->
      by (vm_compute; reflexivity).
    repeat apply List.Forall2_cons; try apply List.Forall2_nil.
    + exists "bye". split; vm_compute; reflexivity.
    + exists "hello". split; vm_compute; reflexivity.
    + exists "bye". split; vm_compute; reflexivity.
  - rewrite Hrun. vm_compute. reflexivity.
Defined.

(** C8. When the resolved destination is not an existing regular file, the
    operation stops with the destination warning: nothing has been read,
    nothing is written, the check is made once.  The bases are taken to be
    patterns; [bundlecache_bad_base] covers a base that is not. *)
Theorem C8_invalid_destination_is_fatal
    h destination files options d l res
    (Hres : baseRe h (base options) = Ok res)
    (Hbad : forall c, d !! resolve h destination <> Some (File c)) :
  bundlecache h destination files options (World d l) =
    (Throw (Warning (invalidDestination (resolve h destination))),
     World d (l ++ [EvWarn (invalidDestination (resolve h destination))])).
Proof.
  unfold bundlecache. unfold bind at 1. unfold lift at 1. rewrite Hres.
  unfold bind at 1. unfold gets at 1. cbn [disk]. unfold existsSync.
  destruct (d !! resolve h destination) as [[raw|]|] eqn:Hd.
  - by destruct (Hbad raw).
  - rewrite bool_decide_eq_true_2 by eauto.
    unfold bind at 1. unfold lstatIsFile. cbn [disk]. rewrite Hd.
    cbn [negb orb]. unfold bind at 1. by rewrite warn_run.
  - rewrite bool_decide_eq_false_2 by (intros [? ?]; discriminate).
    unfold bind at 1. unfold ret at 1.
    cbn [negb orb]. unfold bind at 1. by rewrite warn_run.
Qed.

Lemma C8_witness :
  bundlecache exampleHost (t "app") (OnePattern (t "app/widgets/x.html")) twoOptions
    (World twoDisk []) =
    (Throw (Warning (t "Destination path /app does not exist or is not a File.")),
     World twoDisk [EvWarn (t "Destination path /app does not exist or is not a File.")])
  /\
  bundlecache exampleHost (t "missing.html") (OnePattern (t "app/widgets/x.html")) twoOptions
    (World twoDisk []) =
    (Throw (Warning (t "Destination path /missing.html does not exist or is not a File.")),
     World twoDisk
       [EvWarn (t "Destination path /missing.html does not exist or is not a File.")]).
Proof.
  split.
  - rewrite (C8_invalid_destination_is_fatal exampleHost (t "app")
               (OnePattern (t "app/widgets/x.html")) twoOptions twoDisk [] appRe).
    + reflexivity.
    + vm_compute. reflexivity.
    + intros c. vm_compute. discriminate.
  - rewrite (C8_invalid_destination_is_fatal exampleHost (t "missing.html")
               (OnePattern (t "app/widgets/x.html")) twoOptions twoDisk [] appRe).
    + reflexivity.
    + vm_compute. reflexivity.
    + intros c. vm_compute. discriminate.
Defined.

(** C9. A resolved path that does not exist when the files are read is
    left out without any error: the run succeeds, the blocks are those of
    the other paths in their order, the missing path is not read and no
    warning is logged. *)
Theorem C9_stale_path_dropped
    h destination files options d l res raw before p after tags
    (Hres : baseRe h (base options) = Ok res)
    (Hdest : d !! resolve h destination = Some (File raw))
    (Hlist : expandAll h d (templatesOf files) = before ++ p :: after)
    (Hgone : d !! p = None)
    (Htags : Forall2 (blockOf h d res options)
               (List.filter (existsSync d) (before ++ after)) tags) :
  bundlecache h destination files options (World d l) =
    (Ok (spliced (fileText h raw) tags),
     World (<[resolve h destination := File (encode h (spliced (fileText h raw) tags))]> d)
           (l ++ map EvRead (List.filter (existsSync d) (before ++ after))
              ++ [EvRead (resolve h destination);
                  EvWrite (resolve h destination) (spliced (fileText h raw) tags)])) /\
  EvRead p ∉ map EvRead (List.filter (existsSync d) (before ++ after)).
Proof.
  assert (List.filter (existsSync d) (before ++ p :: after)
          = List.filter (existsSync d) (before ++ after)) as Hf.
  { rewrite !List.filter_app. cbn [List.filter].
    unfold existsSync at 2. rewrite Hgone.
    rewrite bool_decide_eq_false_2 by (intros [? ?]; discriminate). reflexivity. }
  split.
  - rewrite <- Hf, <- Hlist. apply (bundlecache_ok h _ _ _ _ _ _ _ _ Hres Hdest).
    by rewrite Hlist, Hf.
  - intros Hin. apply list_elem_of_In, in_map_iff in Hin as (q & [= ->] & Hq).
    apply filter_In in Hq as [_ Hq]. unfold existsSync in Hq. rewrite Hgone in Hq.
    rewrite bool_decide_eq_false_2 in Hq by (intros [? ?]; discriminate). discriminate.
Qed.

Lemma C9_witness :
  (bundlecache staleHost (t "index.html") (Patterns [t "a.html"; t "gone.html"]) noOptions
     (World exampleDisk [])).1 = Ok exampleOutput.
Proof.
  destruct (C9_stale_path_dropped
    staleHost (t "index.html") (Patterns [t "a.html"; t "gone.html"]) noOptions
    exampleDisk []
    [] "<html><body>X</body></html>" [t "a.html"] (t "gone.html") [] [exampleTag])
    as [Hrun _].
  - reflexivity.
  - vm_compute. reflexivity.
  - reflexivity.
  - vm_compute. reflexivity.
  - assert (List.filter (existsSync exampleDisk) ([t "a.html"] ++ []) = [t "a.html"]) as ->
      by (vm_compute; reflexivity).
    apply List.Forall2_cons; [|apply List.Forall2_nil].
    exists "hello", (t "hello"). split; [vm_compute; reflexivity|]. split; reflexivity.
  - rewrite Hrun. vm_compute. reflexivity.
Defined.




End Claims.

(** * Beyond the claims: outcomes and effects of a run *)

Section RunProperties.
Import JsString.

(** X1. Whatever happens, a run changes no file other than the resolved
    destination, and logs no write to another path. *)
Theorem bundlecache_touches_only_destination
    h destination files options d l q
    (Hq : q <> resolve h destination) :
  let run := bundlecache h destination files options (World d l) in
  disk run.2 !! q = d !! q /\
  forall c, EvWrite q c ∈ log run.2 -> EvWrite q c ∈ l.
Proof.
  intros run. destruct run as [r w'] eqn:Hrun. subst run. cbn [snd].
  destruct (bundlecache_effects _ _ _ _ _ _ _ _ Hrun)
    as [(e & evs & -> & -> & Hev) | (res & raw & tags & _ & _ & _ & -> & ->)];
    cbn [disk log].
  - split; [done|]. intros c [Hin|Hin]%elem_of_app; [done|].
    rewrite Forall_forall in Hev. by apply Hev in Hin.
  - split; [by rewrite lookup_insert_ne|].
    intros c [Hin|[Hin|Hin]%elem_of_app]%elem_of_app; [done| |].
    + by apply list_elem_of_fmap in Hin as (? & [=] & _).
    + apply elem_of_cons in Hin as [[=]|Hin].
      apply elem_of_cons in Hin as [[= -> _]|Hin]; [done|].
      by apply elem_of_nil in Hin.
Qed.

Lemma bundlecache_touches_only_destination_witness :
  disk (bundlecache exampleHost (t "index.html") (OnePattern (t "a.html")) noOptions
          (World exampleDisk [])).2 !! t "a.html" = exampleDisk !! t "a.html".
Proof.
  apply (bundlecache_touches_only_destination exampleHost (t "index.html")
           (OnePattern (t "a.html")) noOptions exampleDisk [] (t "a.html")).
  vm_compute. discriminate.
Defined.

(** X2. A run that throws, for whatever reason, leaves the disk exactly as
    it was and has written nothing. *)
Theorem bundlecache_failure_writes_nothing
    h destination files options d l e
    (Hfail : (bundlecache h destination files options (World d l)).1 = Throw e) :
  let run := bundlecache h destination files options (World d l) in
  disk run.2 = d /\
  forall p c, EvWrite p c ∈ log run.2 -> EvWrite p c ∈ l.
Proof.
  intros run. subst run.
  destruct (bundlecache h destination files options (World d l)) as [r w'] eqn:Hrun.
  cbn [fst snd] in *. subst r.
  destruct (bundlecache_effects _ _ _ _ _ _ _ _ Hrun)
    as [(e' & evs & _ & -> & Hev) | (res & raw & tags & _ & _ & _ & [=] & _)].
  cbn [disk log]. split; [done|].
  intros p c [Hin|Hin]%elem_of_app; [done|].
  rewrite Forall_forall in Hev. by apply Hev in Hin.
Qed.

Lemma bundlecache_failure_writes_nothing_witness :
  disk (bundlecache exampleHost (t "index.html") (OnePattern (t "lib/src/x.dust"))
          failingOptions (World twoDisk [])).2 = twoDisk.
Proof.
  apply (bundlecache_failure_writes_nothing exampleHost (t "index.html")
           (OnePattern (t "lib/src/x.dust")) failingOptions twoDisk []
           (FilterError (t "bad template"))).
  vm_compute. reflexivity.
Defined.


(** X4. A successful run only inserts into the text it has read: whether
    or not the marker is there, the text returned is the text of the
    destination as read, cut in two, with the joined blocks in between;
    the file then holds the encoding of the returned text. *)
Theorem bundlecache_only_inserts
    h destination files options d l raw out
    (Hdest : d !! resolve h destination = Some (File raw))
    (Hok : (bundlecache h destination files options (World d l)).1 = Ok out) :
  exists a b res tags,
    fileText h raw = a ++ b /\
    out = a ++ join nl tags ++ b /\
    Forall2 (blockOf h d res options)
      (List.filter (existsSync d) (expandAll h d (templatesOf files))) tags /\
    disk (bundlecache h destination files options (World d l)).2
      = <[resolve h destination := File (encode h out)]> d.
Proof.
  destruct (bundlecache h destination files options (World d l)) as [r w'] eqn:Hrun.
  cbn [fst snd] in *. subst r.
  destruct (bundlecache_effects _ _ _ _ _ _ _ _ Hrun)
    as [(e & evs & [=] & _) | (res & raw' & tags & Hres & Hdest' & HF & [= ->] & ->)].
  rewrite Hdest in Hdest'. injection Hdest' as <-.
  exists (slice (fileText h raw) 0 (Some (indexOf (fileText h raw) marker))),
         (slice (fileText h raw) (indexOf (fileText h raw) marker) None), res, tags.
  split; [by rewrite slice_cut|]. by repeat split.
Qed.

Lemma bundlecache_only_inserts_witness :
  exists a b res tags,
    fileText exampleHost ("<p>" +:+ smiley) = a ++ b /\
    t "<p>" ++ [55357%N] ++ claimedBlock (t "a.html") (t "hello") ++ [56832%N]
      = a ++ join nl tags ++ b /\
    Forall2 (blockOf exampleHost smileyDisk res noOptions)
      (List.filter (existsSync smileyDisk)
         (expandAll exampleHost smileyDisk (templatesOf (OnePattern (t "a.html"))))) tags /\
    disk (bundlecache exampleHost (t "index.html") (OnePattern (t "a.html")) noOptions
            (World smileyDisk [])).2
      = <[resolve exampleHost (t "index.html") :=
            File (encode exampleHost
                    (t "<p>" ++ [55357%N] ++ claimedBlock (t "a.html") (t "hello")
                       ++ [56832%N]))]> smileyDisk.
Proof.
  apply (bundlecache_only_inserts exampleHost (t "index.html") (OnePattern (t "a.html"))
           noOptions smileyDisk [] ("<p>" +:+ smiley)).
  - vm_compute. reflexivity.
  - vm_compute. reflexivity.
Defined.

(** X5. A resolved path that exists but is a directory makes the run throw
    the read error of that path: the sources before it have been read, the
    ones after it and the destination have not, and nothing is written. *)
Theorem bundlecache_directory_source_throws
    h destination files options d l res raw before p after tags
    (Hres : baseRe h (base options) = Ok res)
    (Hdest : d !! resolve h destination = Some (File raw))
    (Hlist : List.filter (existsSync d) (expandAll h d (templatesOf files))
             = before ++ p :: after)
    (Hbefore : Forall2 (blockOf h d res options) before tags)
    (Hdir : d !! p = Some Dir) :
  bundlecache h destination files options (World d l) =
    (Throw (ReadError p), World d (l ++ map EvRead before ++ [EvRead p])).
Proof.
  rewrite (bundlecache_after_checks h _ _ _ _ _ _ _ Hres Hdest), Hlist.
  rewrite (mapM_tagOf_fails h _ _ _ _ _ _ _ (ReadError p) l Hbefore); [done|].
  intros l'. by apply tagOf_throw_dir.
Qed.

Lemma bundlecache_directory_source_throws_witness :
  bundlecache exampleHost (t "index.html")
    (Patterns [t "app/widgets/x.html"; t "app"; t "lib/src/x.dust"]) twoOptions
    (World twoDisk []) =
    (Throw (ReadError (t "app")),
     World twoDisk ([] ++ map EvRead [t "app/widgets/x.html"] ++ [EvRead (t "app")])).
Proof.
  apply (bundlecache_directory_source_throws exampleHost (t "index.html")
           (Patterns [t "app/widgets/x.html"; t "app"; t "lib/src/x.dust"]) twoOptions
           twoDisk [] appRe "<html><body>X</body></html>"
           [t "app/widgets/x.html"] (t "app") [t "lib/src/x.dust"]
           [scriptTag (t "widgets/x.html") (t "hello")]).
  - vm_compute. reflexivity.
  - vm_compute. reflexivity.
  - vm_compute. reflexivity.
  - apply List.Forall2_cons; [|apply List.Forall2_nil].
    exists "hello", (t "hello").
    split; [vm_compute; reflexivity|]. split; vm_compute; reflexivity.
  - vm_compute. reflexivity.
Defined.

(** X6. A filter that throws on the text of a source makes the run throw
    that same error: the sources after it and the destination are not read,
    and nothing is written. *)
Theorem bundlecache_filter_error_propagates
    h destination files options d l res html before p after tags raw filter e
    (Hres : baseRe h (base options) = Ok res)
    (Hdest : d !! resolve h destination = Some (File html))
    (Hlist : List.filter (existsSync d) (expandAll h d (templatesOf files))
             = before ++ p :: after)
    (Hbefore : Forall2 (blockOf h d res options) before tags)
    (Hfile : d !! p = Some (File raw))
    (Hfilter : filters options !! Path.extname p = Some filter)
    (Hthrow : filter (fileText h raw) = Throw e) :
  bundlecache h destination files options (World d l) =
    (Throw e, World d (l ++ map EvRead before ++ [EvRead p])).
Proof.
  rewrite (bundlecache_after_checks h _ _ _ _ _ _ _ Hres Hdest), Hlist.
  rewrite (mapM_tagOf_fails h _ _ _ _ _ _ _ e l Hbefore); [done|].
  intros l'. by eapply tagOf_throw_filter.
Qed.

Lemma bundlecache_filter_error_propagates_witness :
  bundlecache exampleHost (t "index.html")
    (Patterns [t "lib/src/x.dust"; t "app/widgets/x.html"]) failingOptions
    (World twoDisk []) =
    (Throw (FilterError (t "bad template")),
     World twoDisk ([] ++ map EvRead [] ++ [EvRead (t "lib/src/x.dust")])).
Proof.
  apply (bundlecache_filter_error_propagates exampleHost (t "index.html")
           (Patterns [t "lib/src/x.dust"; t "app/widgets/x.html"]) failingOptions
           twoDisk [] [] "<html><body>X</body></html>"
           [] (t "lib/src/x.dust") [t "app/widgets/x.html"] [] "bye" failing).
  - reflexivity.
  - vm_compute. reflexivity.
  - vm_compute. reflexivity.
  - constructor.
  - vm_compute. reflexivity.
  - vm_compute. reflexivity.
  - reflexivity.
Defined.

(** X7. On a destination whose text is empty the text written is just the
    blocks joined by newlines. *)
Theorem bundlecache_empty_destination
    h destination files options d l res raw tags
    (Hres : baseRe h (base options) = Ok res)
    (Hdest : d !! resolve h destination = Some (File raw))
    (Hempty : fileText h raw = [])
    (Htags : Forall2 (blockOf h d res options)
               (List.filter (existsSync d) (expandAll h d (templatesOf files))) tags) :
  let run := bundlecache h destination files options (World d l) in
  run.1 = Ok (join nl tags) /\
  disk run.2 = <[resolve h destination := File (encode h (join nl tags))]> d.
Proof.
  intros run. subst run.
  rewrite (bundlecache_ok h _ _ _ _ _ _ _ _ Hres Hdest Htags). cbn [fst snd disk].
  rewrite Hempty.
  assert (spliced [] tags = join nl tags) as ->; [|done].
  unfold spliced. change (indexOf [] marker) with (-1).
  change (slice [] 0 (Some (-1))) with (@nil N).
  change (slice [] (-1) None) with (@nil N).
  by rewrite app_nil_l, app_nil_r.
Qed.

Lemma bundlecache_empty_destination_witness :
  (bundlecache exampleHost (t "index.html") (OnePattern (t "a.html")) noOptions
     (World (<[t "/index.html" := File EmptyString]> exampleDisk) [])).1
    = Ok (join nl [exampleTag]).
Proof.
  apply (bundlecache_empty_destination exampleHost (t "index.html")
           (OnePattern (t "a.html"))
           noOptions (<[t "/index.html" := File EmptyString]> exampleDisk) [] []
           EmptyString).
  - reflexivity.
  - vm_compute. reflexivity.
  - reflexivity.
  - assert (List.filter (existsSync (<[t "/index.html" := File EmptyString]> exampleDisk))
              (expandAll exampleHost (<[t "/index.html" := File EmptyString]> exampleDisk)
                 (templatesOf (OnePattern (t "a.html"))))
            = [t "a.html"]) as -> by (vm_compute; reflexivity).
    apply List.Forall2_cons; [|apply List.Forall2_nil].
    exists "hello", (t "hello"). split; [vm_compute; reflexivity|]. split; reflexivity.
Defined.

End RunProperties.

(** * Beyond the claims: identifiers *)

Section IdentifierProperties.
Import JsString Regex.

(** X8. Bases without syntax characters are plain prefixes: every one of
    them compiles, and the identifier is the path with each base, in turn,
    removed from the front when the text at that point begins with it. *)
Theorem plain_bases_strip_prefixes h bs
    (Hhost : knowsFragment h)
    (Hplain : Forall (fun b => allPlain b = true) bs) :
  baseRe h bs = Ok (map (fun b => compiled (Seq Bol (literal b))) bs) /\
  forall path,
    relPathOf (map (fun b => compiled (Seq Bol (literal b))) bs) path =
      fold_left stripPrefix bs path.
Proof.
  split.
  - unfold baseRe. induction Hplain as [|b bs Hb _ IH]; [reflexivity|].
    cbn [mapR map]. by rewrite (Hhost _ _ (engine_plain b Hb)), IH.
  - clear Hplain. induction bs as [|b bs IH]; intros path; [reflexivity|].
    cbn [map fold_left]. rewrite <- IH. rewrite relPathOf_cons.
    change (compiled (Seq Bol (literal b)) path)
      with (replace path (Seq Bol (literal b)) []).
    by rewrite replace_literal.
Qed.

Lemma plain_bases_strip_prefixes_witness :
  baseRe exampleHost [t "app/"; t "widgets/"] =
    Ok (map (fun b => compiled (Seq Bol (literal b))) [t "app/"; t "widgets/"]) /\
  relPathOf (map (fun b => compiled (Seq Bol (literal b))) [t "app/"; t "widgets/"])
    (t "app/widgets/x.html") = t "x.html".
Proof.
  destruct (plain_bases_strip_prefixes exampleHost [t "app/"; t "widgets/"]) as [Hc Hid].
  - intros src f Hf. exact Hf.
  - repeat constructor.
  - split; [exact Hc|]. rewrite Hid. reflexivity.
Defined.

(** X9. Each base removes at most one contiguous piece of the path, so the
    identifier is never longer than the path. *)
Theorem identifier_never_longer res path :
  (length (relPathOf (map compiled res) path) <= length path)%nat.
Proof.
  revert path. induction res as [|re res IH]; intros path; [reflexivity|].
  cbn [map]. rewrite relPathOf_cons. etrans; [apply IH|].
  change (compiled re path) with (replace path re []).
  destruct (replace_segment re path) as (a & x & b & Hp & ->).
  rewrite Hp. rewrite !length_app. lia.
Qed.

(** X10. The pattern built from a base is [^r] or [^r|r2].  In the first
    case the base is stripped at the start of the path or not at all: the
    identifier after that base is a suffix of the path. *)
Theorem unalternated_base_keeps_a_suffix b re
    (Hre : parse (t "^" ++ b) = Some re)
    (Hseq : forall r1 r2, re <> Alt r1 r2) :
  forall path, exists n, compiled re path = drop n path.
Proof.
  intros path. destruct (parse_caret _ _ Hre) as [[r ->] | (r & r2 & ->)].
  - change (compiled (Seq Bol r) path) with (replace path (Seq Bol r) []).
    rewrite replace_anchored. unfold stripAnchored.
    destruct (matchAt r 0 path) as [e|]; [by exists e|].
    by exists 0%nat.
  - by destruct (Hseq (Seq Bol r) r2).
Qed.

Lemma unalternated_base_keeps_a_suffix_witness :
  exists n,
    compiled (Seq Bol (Seq (Plus Dot) (Seq (Chr 47) Empty))) (t "xapp/y.html")
      = drop n (t "xapp/y.html").
Proof.
  apply (unalternated_base_keeps_a_suffix (t ".+/")).
  - vm_compute. reflexivity.
  - intros r1 r2. discriminate.
Defined.

End IdentifierProperties.

(** * Beyond the claims: the task *)

Section TaskProperties.
Import JsString.

(** X11. Targets are processed in order and the first one that throws ends
    the task: the targets before it stay written, with one line printed for
    each, the failing target leaves the disk as it found it, and the
    targets after it are not processed. *)
Theorem task_stops_at_first_failure
    h cyan raw fs1 f fs2 w out w1 out1 e w2
    (Hfirst : bundlecacheTask h cyan raw fs1 w out = (Ok tt, w1, out1))
    (Hfail : bundlecache h (dest f) (src f) (normalizeOptions raw) w1 = (Throw e, w2)) :
  bundlecacheTask h cyan raw (fs1 ++ f :: fs2) w out = (Throw e, w2, out1) /\
  out1 = out ++ map (updated cyan) fs1 /\
  disk w2 = disk w1.
Proof.
  unfold bundlecacheTask in *. split; [|split].
  - rewrite forEachFile_app, Hfirst. cbn [forEachFile]. by rewrite Hfail.
  - by apply forEachFile_ok_lines in Hfirst.
  - destruct w1 as [d1 l1].
    destruct (bundlecache_effects _ _ _ _ _ _ _ _ Hfail)
      as [(e' & evs & _ & -> & _) | (res & html & tags & _ & _ & _ & [=] & _)].
    reflexivity.
Qed.

Lemma task_stops_at_first_failure_witness :
  bundlecacheTask exampleHost plainCyan (RawOptions BaseAbsent None)
    ([Target (t "index.html") (Patterns [t "a.html"])]
       ++ Target (t "missing.html") (Patterns [t "a.html"])
       :: [Target (t "index.html") (Patterns [t "a.html"])])
    (World exampleDisk []) [] =
    (Throw (Warning (invalidDestination (t "/missing.html"))),
     World (<[t "/index.html" := File (Utf8.encode exampleOutput)]> exampleDisk)
       [EvRead (t "a.html"); EvRead (t "/index.html");
        EvWrite (t "/index.html") exampleOutput;
        EvWarn (invalidDestination (t "/missing.html"))],
     [t "File [index.html] updated with cache."]).
Proof.
  apply (task_stops_at_first_failure exampleHost plainCyan (RawOptions BaseAbsent None)
           [Target (t "index.html") (Patterns [t "a.html"])]
           (Target (t "missing.html") (Patterns [t "a.html"]))
           [Target (t "index.html") (Patterns [t "a.html"])]
           (World exampleDisk []) []
           (World (<[t "/index.html" := File (Utf8.encode exampleOutput)]> exampleDisk)
              [EvRead (t "a.html"); EvRead (t "/index.html");
               EvWrite (t "/index.html") exampleOutput])).
  - vm_compute. reflexivity.
  - vm_compute. reflexivity.
Defined.

(** X12. The task prints exactly one line for every target it completes,
    in target order, and none for the target that throws or for those after
    it: the targets split into those that complete one after the other,
    each from the world the one before left, and the rest; the lines
    printed are those of the completed targets; the task returns when
    there is no rest, and otherwise throws what the first target of the
    rest throws in the world the completed ones left. *)
Theorem task_prints_one_line_per_completed_target h cyan raw fs w out :
  let options := normalizeOptions raw in
  let run := bundlecacheTask h cyan raw fs w out in
  exists completed rest w1,
    fs = completed ++ rest /\
    completes h options completed w w1 /\
    run.2 = out ++ map (updated cyan) completed /\
    match run.1.1 with
    | Ok _ => rest = [] /\ run.1.2 = w1
    | Throw e =>
        exists f rest',
          rest = f :: rest' /\
          bundlecache h (dest f) (src f) options w1 = (Throw e, run.1.2)
    end.
Proof.
  unfold bundlecacheTask. generalize (normalizeOptions raw). intros options. cbn zeta.
  revert w out. induction fs as [|f fs IH]; intros w out; cbn [forEachFile].
  - exists [], [], w. cbn. rewrite app_nil_r. repeat split. constructor.
  - destruct (bundlecache h (dest f) (src f) options w) as [[x|e] w1] eqn:Hrun.
    + destruct (IH w1 (out ++ [updated cyan f]))
        as (completed & rest & w2 & -> & Hc & Hout & Hr).
      exists (f :: completed), rest, w2. rewrite Hout. cbn [map].
      rewrite <- app_assoc. split; [done|]. split; [by econstructor|]. split; [done|].
      exact Hr.
    + exists [], (f :: fs), w. cbn. rewrite app_nil_r.
      split; [done|]. split; [constructor|]. split; [done|]. by exists f, fs.
Qed.

(** X13. The task changes no file other than the resolved destinations of
    its targets. *)
Theorem task_touches_only_destinations
    h cyan raw fs w out q
    (Hq : q ∉ map (fun f => resolve h (dest f)) fs) :
  disk (bundlecacheTask h cyan raw fs w out).1.2 !! q = disk w !! q.
Proof.
  unfold bundlecacheTask. generalize (normalizeOptions raw). intros options.
  revert w out. induction fs as [|f fs IH]; intros w out; cbn [forEachFile]; [done|].
  cbn [map] in Hq. apply not_elem_of_cons in Hq as [Hqf Hq].
  destruct w as [d l].
  destruct (bundlecache h (dest f) (src f) options (World d l)) as [[x|e] w1] eqn:Hrun.
  - rewrite (IH Hq).
    destruct (bundlecache_effects _ _ _ _ _ _ _ _ Hrun)
      as [(e' & evs & [=] & _) | (res & html & tags & _ & _ & _ & _ & ->)].
    cbn [disk]. by rewrite lookup_insert_ne.
  - cbn [fst snd].
    destruct (bundlecache_effects _ _ _ _ _ _ _ _ Hrun)
      as [(e' & evs & _ & -> & _) | (res & html & tags & _ & _ & _ & [=] & _)].
    reflexivity.
Qed.

Lemma task_touches_only_destinations_witness :
  disk (bundlecacheTask exampleHost plainCyan (RawOptions BaseAbsent None)
          [Target (t "index.html") (Patterns [t "a.html"])] (World exampleDisk []) []).1.2
    !! t "a.html" = disk (World exampleDisk []) !! t "a.html".
Proof.
  apply (task_touches_only_destinations exampleHost plainCyan (RawOptions BaseAbsent None)
           [Target (t "index.html") (Patterns [t "a.html"])] (World exampleDisk []) []
           (t "a.html")).
  vm_compute. intros H. apply elem_of_cons in H as [[=]|H]. by apply elem_of_nil in H.
Defined.

(** X14. The empty string given as base runs the task exactly as the
    array holding the empty string does.  The first is falsy and the task
    replaces it by the empty array; the second is kept and compiled to the
    pattern [^], which removes nothing.  The host is one that knows the
    patterns of the fragment. *)
Theorem task_empty_string_base_is_no_base h cyan fs files w out
    (Hhost : knowsFragment h) :
  bundlecacheTask h cyan (RawOptions (BaseString []) fs) files w out =
    bundlecacheTask h cyan (RawOptions (BaseArray [[]]) fs) files w out.
Proof.
  unfold bundlecacheTask. apply forEachFile_ext. intros f w0.
  eapply bundlecache_same_identifiers.
  - reflexivity.
  - unfold baseRe. cbn [normalizeOptions rawBaseOf base mapR].
    rewrite (Hhost (t "^" ++ []) (compiled (Regex.Seq Regex.Bol Regex.Empty)) eq_refl).
    reflexivity.
  - reflexivity.
  - intros p. rewrite relPathOf_cons. symmetry.
    change (Regex.replace p (Regex.Seq Regex.Bol Regex.Empty) [] = p).
    rewrite replace_anchored. reflexivity.
Qed.

Lemma task_empty_string_base_is_no_base_witness :
  bundlecacheTask exampleHost plainCyan (RawOptions (BaseString []) None)
    [Target (t "index.html") (Patterns [t "a.html"])] (World exampleDisk []) [] =
  bundlecacheTask exampleHost plainCyan (RawOptions (BaseArray [[]]) None)
    [Target (t "index.html") (Patterns [t "a.html"])] (World exampleDisk []) [].
Proof.
  apply (task_empty_string_base_is_no_base exampleHost plainCyan None
           [Target (t "index.html") (Patterns [t "a.html"])] (World exampleDisk []) []).
  intros src f Hf. exact Hf.
Defined.

End TaskProperties.

(** * Beyond the claims: the key of a filter *)

Section ExtensionProperties.
Import JsString.

(** X15. The key looked up in [options.filters] is empty or begins with a
    dot, so a filter registered under any other key (such as [html]) is
    never applied to any file. *)
Theorem filter_key_needs_leading_dot
    (fs : gmap text (text -> result text)) key filter
    (Hkey : key <> [])
    (Hdot : startsWith (t ".") key = false) :
  forall path content,
    applyFilter (<[key := filter]> fs) (Path.extname path) content =
      applyFilter fs (Path.extname path) content.
Proof.
  intros path content. unfold applyFilter. rewrite lookup_insert_ne; [done|].
  intros ->. destruct (extname_shape path) as [He|[e He]]; [done|].
  rewrite He in Hdot. cbn in Hdot. discriminate.
Qed.

Lemma filter_key_needs_leading_dot_witness :
  applyFilter (<[t "html" := failing]> ∅) (Path.extname (t "a.html")) (t "hello") =
    applyFilter ∅ (Path.extname (t "a.html")) (t "hello").
Proof.
  apply (filter_key_needs_leading_dot ∅ (t "html") failing).
  - discriminate.
  - reflexivity.
Defined.

End ExtensionProperties.

(** * Beyond the claims: a second run *)

Section SecondRun.
Import JsString.

(** X16. The helper is not idempotent.  When the destination holds the
    marker, no block of the first run holds it and the text written by the
    first run is read back as it was written, a second run finds the
    original marker again and puts its blocks right after those of the
    first run, with nothing in between. *)
Theorem second_run_inserts_after_first
    h destination files options d l res raw tags1 tags2
    (Hres : baseRe h (base options) = Ok res)
    (Hdest : d !! resolve h destination = Some (File raw))
    (Hmark : occurs marker (fileText h raw))
    (Htags1 : Forall2 (blockOf h d res options)
                (List.filter (existsSync d) (expandAll h d (templatesOf files))) tags1)
    (Hclean : ~ occurs marker (join nl tags1))
    (Hback : fileText h (encode h (spliced (fileText h raw) tags1))
             = spliced (fileText h raw) tags1)
    (Htags2 : Forall2
                (blockOf h
                   (<[resolve h destination :=
                        File (encode h (spliced (fileText h raw) tags1))]> d) res options)
                (List.filter
                   (existsSync
                      (<[resolve h destination :=
                           File (encode h (spliced (fileText h raw) tags1))]> d))
                   (expandAll h
                      (<[resolve h destination :=
                           File (encode h (spliced (fileText h raw) tags1))]> d)
                      (templatesOf files))) tags2) :
  exists pre post,
    firstAt marker (fileText h raw) pre post /\
    (bundlecache h destination files options (World d l)).1 =
      Ok (pre ++ join nl tags1 ++ marker ++ post) /\
    (bundlecache h destination files options
       (bundlecache h destination files options (World d l)).2).1 =
      Ok (pre ++ join nl tags1 ++ join nl tags2 ++ marker ++ post).
Proof.
  destruct (spliced_found (fileText h raw) tags1 Hmark) as (pre & post & Hf & Hout1).
  exists pre, post. split; [exact Hf|].
  rewrite (bundlecache_ok h _ _ _ _ _ _ _ _ Hres Hdest Htags1). cbn [fst snd].
  split; [by rewrite Hout1|].
  rewrite (bundlecache_ok h destination files options _ _ res
             (encode h (spliced (fileText h raw) tags1)) tags2
             Hres (lookup_insert_eq _ _ _) Htags2).
  cbn [fst]. f_equal. rewrite Hback. unfold spliced at 1. rewrite Hout1.
  rewrite (indexOf_after_insert (fileText h raw) pre post (join nl tags1) Hf Hclean
             (join_blocks_shape _ _ _ _ _ _ Htags1)).
  rewrite (app_assoc pre (join nl tags1)).
  destruct (slice_at (pre ++ join nl tags1) (marker ++ post)) as [-> ->].
  by rewrite <- !app_assoc.
Qed.

Lemma second_run_inserts_after_first_witness :
  exists pre post,
    firstAt marker (fileText exampleHost "<html><body>X</body></html>") pre post /\
    (bundlecache exampleHost (t "index.html") (OnePattern (t "a.html")) noOptions
       (World exampleDisk [])).1 =
      Ok (pre ++ join nl [exampleTag] ++ marker ++ post) /\
    (bundlecache exampleHost (t "index.html") (OnePattern (t "a.html")) noOptions
       (bundlecache exampleHost (t "index.html") (OnePattern (t "a.html")) noOptions
          (World exampleDisk [])).2).1 =
      Ok (pre ++ join nl [exampleTag] ++ join nl [exampleTag] ++ marker ++ post).
Proof.
  apply (second_run_inserts_after_first exampleHost (t "index.html")
           (OnePattern (t "a.html"))
           noOptions exampleDisk [] [] "<html><body>X</body></html>"
           [exampleTag] [exampleTag]).
  - reflexivity.
  - vm_compute. reflexivity.
  - exists (t "<html><body>X"), (t "</html>"). reflexivity.
  - assert (List.filter (existsSync exampleDisk)
              (expandAll exampleHost exampleDisk (templatesOf (OnePattern (t "a.html"))))
            = [t "a.html"]) as -> by (vm_compute; reflexivity).
    apply List.Forall2_cons; [|apply List.Forall2_nil].
    exists "hello", (t "hello"). split; [vm_compute; reflexivity|]. split; reflexivity.
  - apply indexOf_no_occurs. vm_compute. reflexivity.
  - vm_compute. reflexivity.
  - match goal with |- Forall2 _ ?l _ =>
      assert (l = [t "a.html"]) as -> by (vm_compute; reflexivity) end.
    apply List.Forall2_cons; [|apply List.Forall2_nil].
    exists "hello", (t "hello"). split; [vm_compute; reflexivity|]. split; reflexivity.
Defined.

End SecondRun.
